(** * folder-to-usb: the tree walk, the exclusion rules and the two scripts

    A shallow embedding of [main.py] (the copy to the first removable drive,
    with its dry-run flag) and of [simulate_main.py] (the simulation report),
    and the properties of the walk, of the exclusion predicate and of the
    error paths that the specification states about them.

    Conventions of the embedding.
    - Python's [int] is [Z]; [str] is [string]; a [set] of strings is a
      [gset string]; a [defaultdict] is a [gmap] read with a default.
    - The functions of [os.path] and [str.lower] are library code: they are
      the fields of the class [Runtime], so that every theorem holds for
      [ntpath] and for [posixpath] alike.  [NtLike] is one small instance,
      used to run the scripts on concrete trees.
    - The file system is a tree of [entry]s.  [os.walk] hands out names; the
      embedding hands out the entries those names denote in the directory
      being listed.
    - What the scripts do to the outside world is a chronological list of
      [effect]s (for [main.py]) or the list of strings written to the report
      (for [simulate_main.py]).  The simulation keeps sums only; the state of
      the embedding also keeps the list of the updates made to them. *)

From Stdlib Require Import ZArith Lia String Ascii List.
From stdpp Require Import base gmap strings list.
Import ListNotations.
Open Scope string_scope.
Open Scope list_scope.
Open Scope Z_scope.

(** ** The library functions the scripts call *)

Class Runtime := {
  (** [os.path.basename] *)
  basename : string -> string;
  (** [os.path.join], two arguments *)
  join : string -> string -> string;
  (** [os.path.relpath path start] *)
  relpath : string -> string -> string;
  (** [os.path.splitext p] second component *)
  splitext_ext : string -> string;
  (** [str.lower] *)
  lower : string -> string
}.

(** [str.endswith]: the last [length suffix] characters are [suffix]. *)
Definition endswith (s suffix : string) : bool :=
  let n := String.length s in
  let m := String.length suffix in
  (m <=? n)%nat && String.eqb (substring (n - m) m s) suffix.

(** ** The file system *)

(** A file has a byte size, and [os.path.getsize] on it either answers or
    raises ([stat_ok = false]: a dangling link, a path too long, a race with
    a deletion).  A directory can be listed or not ([listable = false]:
    [os.scandir] raises [OSError]).  Links to directories, which [os.walk]
    lists and does not follow, are not modelled. *)
#[local] Unset Elimination Schemes.
Inductive entry :=
| File (name : string) (size : Z) (stat_ok : bool)
| Dir (name : string) (listable : bool) (children : list entry).
#[local] Set Elimination Schemes.

Definition entry_name (e : entry) : string :=
  match e with
  | File n _ _ => n
  | Dir n _ _ => n
  end.

Definition is_dir (e : entry) : bool :=
  match e with
  | Dir _ _ _ => true
  | File _ _ _ => false
  end.

(** The two lists [os.walk] builds from one [os.scandir]. *)
Definition subdirs (children : list entry) : list entry :=
  List.filter is_dir children.

Definition nondirs (children : list entry) : list entry :=
  List.filter (fun c => negb (is_dir c)) children.

(** [os.path.getsize]: [None] when it raises. *)
Definition getsize (e : entry) : option Z :=
  match e with
  | File _ sz true => Some sz
  | _ => None
  end.

(** [name in names], for a list of names. *)
Definition name_in (n : string) (names : list string) : bool :=
  existsb (String.eqb n) names.

(** A path on the file system leads to an entry, or to nothing. *)
Definition filesystem := string -> option entry.

(** ** [os.walk], top down, with the caller pruning [dirs] in place

    [for root, dirs, files in os.walk(top): body] is [os_walk body top e s]:
    [body] receives the state and answers with the new state and the list it
    left in [dirs], or raises.  A directory that cannot be listed yields
    nothing ([onerror] is [None]), and so does a [top] that is not a
    directory.  After the body, the walk enters the sub-directories whose
    name is still in [dirs], in listing order. *)
Section OsWalk.
Context `{Runtime} {S E : Type}.
Variable body : string -> list entry -> list entry -> S -> E + (S * list string).

Fixpoint os_walk (top : string) (e : entry) (s : S) {struct e} : E + S :=
  match e with
  | File _ _ _ => inr s
  | Dir _ false _ => inr s
  | Dir _ true children =>
      match body top (subdirs children) (nondirs children) s with
      | inl err => inl err
      | inr (s1, dirs') =>
          (fix descend (cs : list entry) (s : S) {struct cs} : E + S :=
             match cs with
             | [] => inr s
             | c :: cs' =>
                 if is_dir c && name_in (entry_name c) dirs' then
                   match os_walk (join top (entry_name c)) c s with
                   | inl err => inl err
                   | inr s' => descend cs' s'
                   end
                 else descend cs' s
             end) children s1
      end
  end.

(** The loop over the sub-directories, as a function of its own. *)
Fixpoint descend (top : string) (dirs' : list string) (cs : list entry) (s : S)
  : E + S :=
  match cs with
  | [] => inr s
  | c :: cs' =>
      if is_dir c && name_in (entry_name c) dirs' then
        match os_walk (join top (entry_name c)) c s with
        | inl err => inl err
        | inr s' => descend top dirs' cs' s'
        end
      else descend top dirs' cs' s
  end.

(** [os.walk(path)] for a path of the file system. *)
Definition walk_path (fs : filesystem) (path : string) (s : S) : E + S :=
  match fs path with
  | Some e => os_walk path e s
  | None => inr s
  end.
End OsWalk.

(** ** main.py *)

(** [should_ignore(path, ignore_dirs, ignore_exts, ignore_files)] *)
Definition should_ignore `{Runtime} (path : string)
    (ignore_dirs ignore_exts ignore_files : gset string) : bool :=
  let name := basename path in
  if bool_decide (name ∈ ignore_dirs) || bool_decide (name ∈ ignore_files) then true
  else if existsb (fun ext => endswith name ext) (elements ignore_exts) then true
  else false.

Definition default_ignore_dirs : gset string :=
  list_to_set ["node_modules"; "venv"; ".git"; "__pycache__"; ".mypy_cache";
               ".pytest_cache"; ".idea"; ".next"; "dist"; "build"; "out"; ".cache"].

Definition default_ignore_exts : gset string :=
  list_to_set [".exe"; ".dll"; ".pyc"; ".pyo"; ".log"; ".tmp"; ".cache"].

Definition default_ignore_files : gset string :=
  list_to_set ["package-lock.json"; "yarn.lock"; ".DS_Store"; "Thumbs.db"].

(** What [smart_copy_to_pendrive] does to the outside world, in order. *)
Inductive effect :=
| LogInfo (msg : string)
| LogError (msg : string)
| Makedirs (path : string)
| Copy2 (src dst : string)
| TqdmOpen (total : Z)
| TqdmUpdate
| TqdmClose.

Inductive exn :=
| RuntimeError (msg : string)
| OSError (path : string).

(** The machine the script runs on.  [copy2 src dst] is [None] when
    [shutil.copy2] returns and [Some e] when it raises an [Exception] whose
    text is [e]; [makedirs path] tells whether
    [os.makedirs(path, exist_ok=True)] returns; [tqdm_bool total] is the
    truth value of a progress bar created with that total. *)
Record world := {
  GetDriveType : string -> Z;
  fs : filesystem;
  makedirs : string -> bool;
  copy2 : string -> string -> option string;
  HAS_TQDM : bool;
  tqdm_bool : Z -> bool
}.

(** [win32file.DRIVE_REMOVABLE] *)
Definition DRIVE_REMOVABLE : Z := 2.

Definition drive_root (drive_letter : ascii) : string :=
  String drive_letter ":\".

Definition is_pendrive (w : world) (drive_letter : ascii) : bool :=
  let drive_type := GetDriveType w (drive_root drive_letter) in
  drive_type =? DRIVE_REMOVABLE.

Definition ascii_uppercase : list ascii :=
  list_ascii_of_string "ABCDEFGHIJKLMNOPQRSTUVWXYZ".

Fixpoint first_pendrive (w : world) (letters : list ascii) : option string :=
  match letters with
  | [] => None
  | letter :: rest =>
      if is_pendrive w letter then Some (drive_root letter)
      else first_pendrive w rest
  end.

Definition find_pendrive (w : world) : exn + string :=
  match first_pendrive w ascii_uppercase with
  | Some root => inr root
  | None => inl (RuntimeError "No pendrive detected.")
  end.

(** [dirs[:] = [d for d in dirs if not should_ignore(d, ignore_dirs, set(), set())]] *)
Definition prune `{Runtime} (ignore_dirs : gset string) (dirs : list entry) : list string :=
  map entry_name
    (List.filter (fun d => negb (should_ignore (entry_name d) ignore_dirs ∅ ∅)) dirs).

(** The first loop: count the files for the progress bar. *)
Fixpoint count_files `{Runtime} (ignore_exts ignore_files : gset string)
    (files : list entry) (total_files : Z) : Z :=
  match files with
  | [] => total_files
  | file :: rest =>
      count_files ignore_exts ignore_files rest
        (if negb (should_ignore (entry_name file) ∅ ignore_exts ignore_files)
         then total_files + 1 else total_files)
  end.

Definition count_body `{Runtime} (ignore_dirs ignore_exts ignore_files : gset string)
    (root : string) (dirs files : list entry) (total_files : Z)
    : Empty_set + (Z * list string) :=
  inr (count_files ignore_exts ignore_files files total_files,
       prune ignore_dirs dirs).

Definition no_raise {A : Type} (r : Empty_set + A) : A :=
  match r with
  | inl e => match e with end
  | inr a => a
  end.

(** The body of [for file in files] in the second loop. *)
Definition copy_file `{Runtime} (w : world) (dry_run pbar : bool)
    (root dest_path : string) (file : entry) (tr : list effect) : list effect :=
  let src_file := join root (entry_name file) in
  let dest_file := join dest_path (entry_name file) in
  let tr1 :=
    if dry_run then
      tr ++ [LogInfo ("Would copy: " +:+ src_file +:+ " -> " +:+ dest_file)]
    else
      match copy2 w src_file dest_file with
      | None =>
          tr ++ [Copy2 src_file dest_file;
                 LogInfo ("Copied: " +:+ src_file +:+ " -> " +:+ dest_file)]
      | Some e =>
          tr ++ [Copy2 src_file dest_file;
                 LogError ("Failed to copy " +:+ src_file +:+ " to " +:+ dest_file
                           +:+ ": " +:+ e)]
      end in
  if pbar then tr1 ++ [TqdmUpdate] else tr1.

Fixpoint copy_files `{Runtime} (w : world) (ignore_exts ignore_files : gset string)
    (dry_run pbar : bool) (root dest_path : string) (files : list entry)
    (tr : list effect) : list effect :=
  match files with
  | [] => tr
  | file :: rest =>
      if should_ignore (entry_name file) ∅ ignore_exts ignore_files then
        copy_files w ignore_exts ignore_files dry_run pbar root dest_path rest tr
      else
        copy_files w ignore_exts ignore_files dry_run pbar root dest_path rest
          (copy_file w dry_run pbar root dest_path file tr)
  end.

(** The body of the second loop.  An exception leaves with the effects so
    far. *)
Definition copy_body `{Runtime} (w : world) (src_folder dest_folder : string)
    (ignore_dirs ignore_exts ignore_files : gset string) (dry_run pbar : bool)
    (root : string) (dirs files : list entry) (tr : list effect)
    : (list effect * exn) + (list effect * list string) :=
  let dirs' := prune ignore_dirs dirs in
  let rel_path := relpath root src_folder in
  let dest_path := join dest_folder rel_path in
  if negb dry_run && negb (makedirs w dest_path) then
    inl (tr ++ [Makedirs dest_path], OSError dest_path)
  else
    let tr0 := if negb dry_run then tr ++ [Makedirs dest_path] else tr in
    inr (copy_files w ignore_exts ignore_files dry_run pbar root dest_path files tr0,
         dirs').

(** One call of [smart_copy_to_pendrive]: its effects, and the exception it
    left with, if any. *)
Record run := {
  effects : list effect;
  raised : option exn
}.

Definition smart_copy_to_pendrive `{Runtime} (w : world) (src_folder : string)
    (ignore_dirs ignore_exts ignore_files : option (gset string))
    (dry_run : bool) : run :=
  let ignore_dirs := default default_ignore_dirs ignore_dirs in
  let ignore_exts := default default_ignore_exts ignore_exts in
  let ignore_files := default default_ignore_files ignore_files in
  match find_pendrive w with
  | inl e => {| effects := []; raised := Some e |}
  | inr pendrive_root =>
      let dest_folder := join pendrive_root (basename src_folder) in
      let total_files :=
        no_raise (walk_path (count_body ignore_dirs ignore_exts ignore_files)
                            (fs w) src_folder 0) in
      let has_pbar := HAS_TQDM w && negb dry_run in
      let pbar := has_pbar && tqdm_bool w total_files in
      let tr0 := if has_pbar then [TqdmOpen total_files] else [] in
      match walk_path (copy_body w src_folder dest_folder ignore_dirs ignore_exts
                                 ignore_files dry_run pbar)
                      (fs w) src_folder tr0 with
      | inl (tr, e) => {| effects := tr; raised := Some e |}
      | inr tr =>
          {| effects := if pbar then tr ++ [TqdmClose] else tr; raised := None |}
      end
  end.

(** ** simulate_main.py *)

(** One value of [copied_ext_stats] or [ignored_ext_stats]:
    [{'count': .., 'size': ..}]. *)
Record ext_stat := {
  st_count : Z;
  st_size : Z
}.

Inductive bucket := Copied | Ignored.

(** Where a counter is updated: in [add_dir_ignored_stats] (the sum over a
    pruned directory) or in the loop over the files of a visited directory. *)
Inductive site := Aggregated | PerFile.

(** One update of the counters.  The script keeps sums only; the list of
    updates is kept beside them (field [counted] below) so that "counted
    once" can be said of a file.  [counters_replay] shows that the sums are
    the sums of this list. *)
Record event := {
  ev_site : site;
  ev_bucket : bucket;
  ev_file : string;
  ev_size : Z;
  ev_ext : string
}.

(** The variables of the script, the strings written to the report so far,
    and the updates made so far. *)
Record sim_state := {
  total_copy_size : Z;
  total_ignored_size : Z;
  copied_ext_stats : gmap string ext_stat;
  ignored_ext_stats : gmap string ext_stat;
  written : list string;
  counted : list event
}.

(** [stats[ext]['count'] += 1; stats[ext]['size'] += file_size] on a
    [defaultdict(lambda: {'count': 0, 'size': 0})]. *)
Definition bump (ext : string) (file_size : Z) (stats : gmap string ext_stat)
    : gmap string ext_stat :=
  let d := default {| st_count := 0; st_size := 0 |} (stats !! ext) in
  <[ext := {| st_count := st_count d + 1; st_size := st_size d + file_size |}]> stats.

Definition count_ignored (at_ : site) (src_file : string) (file_size : Z)
    (ext : string) (s : sim_state) : sim_state :=
  {| total_copy_size := total_copy_size s;
     total_ignored_size := total_ignored_size s + file_size;
     copied_ext_stats := copied_ext_stats s;
     ignored_ext_stats := bump ext file_size (ignored_ext_stats s);
     written := written s;
     counted := counted s ++
       [{| ev_site := at_; ev_bucket := Ignored; ev_file := src_file;
           ev_size := file_size; ev_ext := ext |}] |}.

Definition count_copied (line : string) (src_file : string) (file_size : Z)
    (ext : string) (s : sim_state) : sim_state :=
  {| total_copy_size := total_copy_size s + file_size;
     total_ignored_size := total_ignored_size s;
     copied_ext_stats := bump ext file_size (copied_ext_stats s);
     ignored_ext_stats := ignored_ext_stats s;
     written := written s ++ [line];
     counted := counted s ++
       [{| ev_site := PerFile; ev_bucket := Copied; ev_file := src_file;
           ev_size := file_size; ev_ext := ext |}] |}.

Definition default_dirs : gset string := default_ignore_dirs.
Definition default_exts : gset string := default_ignore_exts.
Definition default_files : gset string := default_ignore_files.

(** The line feed of the report. *)
Definition nl : string := String (ascii_of_nat 10) EmptyString.

(** [for file in files] of [add_dir_ignored_stats]. *)
Fixpoint add_files_ignored `{Runtime} (root : string) (files : list entry)
    (s : sim_state) : sim_state :=
  match files with
  | [] => s
  | file :: rest =>
      let src_file := join root (entry_name file) in
      match getsize file with
      | None => add_files_ignored root rest s
      | Some file_size =>
          let ext := lower (splitext_ext (entry_name file)) in
          add_files_ignored root rest
            (count_ignored Aggregated src_file file_size ext s)
      end
  end.

Definition add_dir_body `{Runtime} (root : string) (dirs files : list entry)
    (s : sim_state) : Empty_set + (sim_state * list string) :=
  inr (add_files_ignored root files s, map entry_name dirs).

(** [add_dir_ignored_stats(dir_path)], [d] being the entry at [dir_path]. *)
Definition add_dir_ignored_stats `{Runtime} (dir_path : string) (d : entry)
    (s : sim_state) : sim_state :=
  no_raise (os_walk add_dir_body dir_path d s).

(** [for ignored in ignored_dirs: add_dir_ignored_stats(os.path.join(root, ignored))] *)
Fixpoint add_ignored_dirs `{Runtime} (root : string) (ignored_dirs : list entry)
    (s : sim_state) : sim_state :=
  match ignored_dirs with
  | [] => s
  | ignored :: rest =>
      add_ignored_dirs root rest
        (add_dir_ignored_stats (join root (entry_name ignored)) ignored s)
  end.

(** [for file in files] of the main loop.  [os.path.join] with three
    arguments is [join] twice. *)
Fixpoint sim_files `{Runtime} (root rel_path : string) (files : list entry)
    (s : sim_state) : sim_state :=
  match files with
  | [] => s
  | file :: rest =>
      let src_file := join root (entry_name file) in
      match getsize file with
      | None => sim_files root rel_path rest s
      | Some file_size =>
          let ext := lower (splitext_ext (entry_name file)) in
          if should_ignore (entry_name file) ∅ default_exts default_files then
            sim_files root rel_path rest
              (count_ignored PerFile src_file file_size ext s)
          else
            let dest_file :=
              join (join "SIMULATED_USB" rel_path) (entry_name file) in
            sim_files root rel_path rest
              (count_copied ("Would copy: " +:+ src_file +:+ " -> " +:+ dest_file +:+ nl)
                            src_file file_size ext s)
      end
  end.

(** The body of [for root, dirs, files in os.walk(test_folder)]. *)
Definition sim_body `{Runtime} (test_folder : string)
    (root : string) (dirs files : list entry) (s : sim_state)
    : Empty_set + (sim_state * list string) :=
  let ignored_dirs :=
    List.filter (fun d => should_ignore (entry_name d) default_dirs ∅ ∅) dirs in
  let s1 := add_ignored_dirs root ignored_dirs s in
  let dirs' :=
    map entry_name
      (List.filter (fun d => negb (name_in (entry_name d) (map entry_name ignored_dirs)))
                   dirs) in
  let rel_path := relpath root test_folder in
  inr (sim_files root rel_path files s1, dirs').

(** What the script writes before the walk. *)
Definition report_header : list string :=
  ["# Simulated Copy Log" +:+ nl +:+ nl; "## Ignored Directories" +:+ nl]
  ++ map (fun d => "- " +:+ d +:+ nl) (elements default_dirs)
  ++ [nl +:+ "## Ignored Extensions" +:+ nl]
  ++ map (fun e => "- " +:+ e +:+ nl) (elements default_exts)
  ++ [nl +:+ "## Ignored Files" +:+ nl]
  ++ map (fun n => "- " +:+ n +:+ nl) (elements default_files)
  ++ [nl +:+ "## Files That Would Be Copied" +:+ nl +:+ nl].

Definition sim_init : sim_state :=
  {| total_copy_size := 0;
     total_ignored_size := 0;
     copied_ext_stats := ∅;
     ignored_ext_stats := ∅;
     written := report_header;
     counted := [] |}.

(** The script up to the end of the walk (the summary that follows prints
    the counters as floating-point megabytes and is left out). *)
Definition simulate_main `{Runtime} (fs : filesystem) (test_folder : string)
    : sim_state :=
  no_raise (walk_path (sim_body test_folder) fs test_folder sim_init).

(** ** What the specification speaks of

    The exclusion rules in the words of the specification, the files of a
    tree, and the list of files a run is to copy.  None of these is used by
    the scripts: the theorems compare the scripts with them. *)

(** A directory name is excluded when it is in the directory-name set. *)
Definition excluded_dir `{Runtime} (ignore_dirs : gset string) (name : string) : bool :=
  bool_decide (basename name ∈ ignore_dirs).

(** A file name is excluded when it is in the file-name set or ends with one
    of the extensions. *)
Definition excluded_file `{Runtime} (ignore_exts ignore_files : gset string)
    (name : string) : bool :=
  bool_decide (basename name ∈ ignore_files)
  || existsb (fun ext => endswith (basename name) ext) (elements ignore_exts).

(** Every file present under a directory, at any depth, with its path and
    its size: the files of the directory, then those of its
    sub-directories. *)
Definition file_size (e : entry) : Z :=
  match e with
  | File _ sz _ => sz
  | Dir _ _ _ => 0
  end.

Fixpoint all_files `{Runtime} (root : string) (e : entry) : list (string * Z) :=
  match e with
  | File _ _ _ => []
  | Dir _ _ cs =>
      map (fun f => (join root (entry_name f), file_size f)) (nondirs cs)
      ++ flat_map (fun c => if is_dir c then all_files (join root (entry_name c)) c
                            else []) cs
  end.

(** The files a walk can see: reached through directories that can be
    listed, and whose size can be read. *)
Definition statable (e : entry) : bool :=
  match getsize e with
  | Some _ => true
  | None => false
  end.

Fixpoint visible_files `{Runtime} (root : string) (e : entry) : list (string * Z) :=
  match e with
  | Dir _ true cs =>
      map (fun f => (join root (entry_name f), file_size f))
          (List.filter statable (nondirs cs))
      ++ flat_map (fun c => if is_dir c then visible_files (join root (entry_name c)) c
                            else []) cs
  | _ => []
  end.

Definition sum_sizes (l : list (string * Z)) : Z :=
  fold_right (fun f acc => snd f + acc) 0 l.

(** Every size can be read and every directory can be listed. *)
Fixpoint all_readable (e : entry) : bool :=
  match e with
  | File _ _ ok => ok
  | Dir _ l cs => l && forallb all_readable cs
  end.

(** How the simulation is to count each visible file: by the sum over a
    pruned directory when one of the directories on the way down from the
    root has an excluded name ([pruned]), and by the per-file loop
    otherwise, where the extension and file-name rules choose the bucket. *)
Definition census_event `{Runtime} (pruned : bool) (root : string) (f : entry) : event :=
  {| ev_site := if pruned then Aggregated else PerFile;
     ev_bucket :=
       if pruned || excluded_file default_exts default_files (entry_name f)
       then Ignored else Copied;
     ev_file := join root (entry_name f);
     ev_size := file_size f;
     ev_ext := lower (splitext_ext (entry_name f)) |}.

Fixpoint census `{Runtime} (pruned : bool) (root : string) (e : entry) : list event :=
  match e with
  | Dir _ true cs =>
      map (census_event pruned root) (List.filter statable (nondirs cs))
      ++ flat_map (fun c =>
                     if is_dir c
                     then census (pruned || excluded_dir default_dirs (entry_name c))
                                 (join root (entry_name c)) c
                     else []) cs
  | _ => []
  end.

Definition ev_key (ev : event) : string * Z := (ev_file ev, ev_size ev).

Definition is_copied (ev : event) : bool :=
  match ev_bucket ev with Copied => true | Ignored => false end.

Definition is_ignored (ev : event) : bool := negb (is_copied ev).

Definition sum_events (l : list event) : Z :=
  fold_right (fun ev acc => ev_size ev + acc) 0 l.

(** The state after more updates [evs] and more lines [ls]: what the
    counters, the tables and the report become. *)
Definition bump_event (stats : gmap string ext_stat) (ev : event) : gmap string ext_stat :=
  bump (ev_ext ev) (ev_size ev) stats.

Definition replay (evs : list event) (ls : list string) (s : sim_state) : sim_state :=
  {| total_copy_size := total_copy_size s + sum_events (List.filter is_copied evs);
     total_ignored_size := total_ignored_size s + sum_events (List.filter is_ignored evs);
     copied_ext_stats :=
       fold_left bump_event (List.filter is_copied evs) (copied_ext_stats s);
     ignored_ext_stats :=
       fold_left bump_event (List.filter is_ignored evs) (ignored_ext_stats s);
     written := written s ++ ls;
     counted := counted s ++ evs |}.

(** The copy plan: the files of the directories the walk lists (those not
    below a directory with an excluded name) that no file rule excludes,
    each with the directory it is in, parents before children. *)
Fixpoint planned `{Runtime} (ignore_dirs ignore_exts ignore_files : gset string)
    (root : string) (e : entry) : list (string * entry) :=
  match e with
  | Dir _ true cs =>
      map (pair root)
          (List.filter (fun f => negb (excluded_file ignore_exts ignore_files (entry_name f)))
                       (nondirs cs))
      ++ flat_map (fun c =>
                     if is_dir c && negb (excluded_dir ignore_dirs (entry_name c))
                     then planned ignore_dirs ignore_exts ignore_files
                                  (join root (entry_name c)) c
                     else []) cs
  | _ => []
  end.

(** Source and destination of a planned file: the destination is the
    destination folder, then the directory's path relative to the source
    folder, then the file name. *)
Definition src_of `{Runtime} (p : string * entry) : string :=
  join (fst p) (entry_name (snd p)).

Definition dest_of `{Runtime} (src_folder dest_folder : string) (p : string * entry)
    : string :=
  join (join dest_folder (relpath (fst p) src_folder)) (entry_name (snd p)).

(** The files [shutil.copy2] was called on, in order. *)
Definition attempts (tr : list effect) : list (string * string) :=
  flat_map (fun ev => match ev with Copy2 s d => [(s, d)] | _ => [] end) tr.

(** An effect that changes the file system. *)
Definition mutates (ev : effect) : bool :=
  match ev with
  | Makedirs _ | Copy2 _ _ => true
  | _ => false
  end.

(** The triples [(root, dirs, files)] that [os.walk] hands out when the
    caller keeps in [dirs] the names that satisfy [keep]. *)
Definition visit : Type := string * list entry * list entry.

Fixpoint yields `{Runtime} (keep : string -> bool) (top : string) (e : entry)
    : list visit :=
  match e with
  | Dir _ true cs =>
      (top, subdirs cs, nondirs cs)
      :: flat_map (fun c =>
                     if is_dir c && keep (entry_name c)
                     then yields keep (join top (entry_name c)) c
                     else []) cs
  | _ => []
  end.

(** The loop body run over a list of such triples, stopping at the first
    exception. *)
Fixpoint run_body {S E : Type}
    (body : string -> list entry -> list entry -> S -> E + (S * list string))
    (l : list visit) (s : S) : E + S :=
  match l with
  | [] => inr s
  | (root, dirs, files) :: l' =>
      match body root dirs files s with
      | inl err => inl err
      | inr (s1, _) => run_body body l' s1
      end
  end.

(** A body prunes by [keep] when the list it leaves in [dirs] is the names
    of [dirs] that satisfy [keep]. *)
Definition prunes_by {S E : Type}
    (body : string -> list entry -> list entry -> S -> E + (S * list string))
    (keep : string -> bool) : Prop :=
  forall root dirs files s s1 dirs',
    body root dirs files s = inr (s1, dirs') ->
    dirs' = map entry_name (List.filter (fun d => keep (entry_name d)) dirs).

Definition pair_of `{Runtime} (src_folder dest_folder : string) (p : string * entry)
    : string * string :=
  (src_of p, dest_of src_folder dest_folder p).

(** The record of a dry run for one planned file. *)
Definition would_copy `{Runtime} (src_folder dest_folder : string) (p : string * entry)
    : effect :=
  LogInfo ("Would copy: " +:+ src_of p +:+ " -> " +:+ dest_of src_folder dest_folder p).

(** The planned files of one listed directory. *)
Definition visit_plan `{Runtime} (ignore_exts ignore_files : gset string) (v : visit)
    : list (string * entry) :=
  match v with
  | (root, _, files) =>
      map (pair root)
          (List.filter (fun f => negb (excluded_file ignore_exts ignore_files (entry_name f)))
                       files)
  end.

(** The effects and the exception of a loop that has stopped. *)
Definition trace_of (r : (list effect * exn) + list effect) : list effect :=
  match r with
  | inl (tr, _) => tr
  | inr tr => tr
  end.

Definition raised_of (r : (list effect * exn) + list effect) : option exn :=
  match r with
  | inl (_, ex) => Some ex
  | inr _ => None
  end.

(** The plan of one call of [smart_copy_to_pendrive]. *)
Definition copy_plan `{Runtime} (w : world) (src_folder : string)
    (ignore_dirs ignore_exts ignore_files : option (gset string))
    : list (string * entry) :=
  match fs w src_folder with
  | Some e =>
      planned (default default_ignore_dirs ignore_dirs)
              (default default_ignore_exts ignore_exts)
              (default default_ignore_files ignore_files) src_folder e
  | None => []
  end.


(** The two terminal outcomes of the specification.  Completed: the call
    returned and every planned file was handled, in the order of the plan
    (reported by a dry run, attempted by a real run).  Aborted before
    start: an exception, and nothing done. *)
Definition completed `{Runtime} (w : world) (src_folder : string)
    (ignore_dirs ignore_exts ignore_files : option (gset string))
    (dry_run : bool) (r : run) : Prop :=
  raised r = None /\
  exists pendrive_root,
    find_pendrive w = inr pendrive_root /\
    let dest_folder := join pendrive_root (basename src_folder) in
    let plan := copy_plan w src_folder ignore_dirs ignore_exts ignore_files in
    if dry_run then effects r = map (would_copy src_folder dest_folder) plan
    else attempts (effects r) = map (pair_of src_folder dest_folder) plan.

Definition aborted_before_start (r : run) : Prop :=
  raised r <> None /\ effects r = [].

(** The updates and the lines of the simulation, one listed directory at a
    time. *)
Definition keep_all (n : string) : bool := true.

Definition visit_aggregated `{Runtime} (v : visit) : list event :=
  match v with
  | (root, _, files) => map (census_event true root) (List.filter statable files)
  end.

Definition aggregated `{Runtime} (dir_path : string) (d : entry) : list event :=
  flat_map visit_aggregated (yields keep_all dir_path d).

Definition visit_events `{Runtime} (v : visit) : list event :=
  match v with
  | (root, dirs, files) =>
      flat_map (fun d => aggregated (join root (entry_name d)) d)
               (List.filter (fun d => excluded_dir default_dirs (entry_name d)) dirs)
      ++ map (census_event false root) (List.filter statable files)
  end.

(** The line of the report for one planned file. *)
Definition report_line `{Runtime} (test_folder : string) (p : string * entry) : string :=
  "Would copy: " +:+ src_of p +:+ " -> " +:+ dest_of test_folder "SIMULATED_USB" p +:+ nl.

Definition visit_lines `{Runtime} (test_folder : string) (v : visit) : list string :=
  map (report_line test_folder)
      (List.filter (fun p => statable (snd p)) (visit_plan default_exts default_files v)).






(** The same machine with another file system. *)
Definition with_fs (w : world) (fs' : filesystem) : world :=
  {| GetDriveType := GetDriveType w;
     fs := fs';
     makedirs := makedirs w;
     copy2 := copy2 w;
     HAS_TQDM := HAS_TQDM w;
     tqdm_bool := tqdm_bool w |}.


(** A listed directory without its list of sub-directories. *)
Definition root_and_files (v : visit) : list (string * list entry) :=
  match v with
  | (root, _, files) => [(root, files)]
  end.

(** The names the pruning of [main.py] and of [simulate_main.py] keeps. *)
Definition keep_dir `{Runtime} (ignore_dirs : gset string) (n : string) : bool :=
  negb (excluded_dir ignore_dirs n).

(** The directories one call of [smart_copy_to_pendrive] lists, the total it
    gives the progress bar, whether the bar counts, and the effects before
    the copy loop. *)
Definition visits `{Runtime} (w : world) (src_folder : string)
    (ignore_dirs : option (gset string)) : list visit :=
  match fs w src_folder with
  | Some e => yields (keep_dir (default default_ignore_dirs ignore_dirs)) src_folder e
  | None => []
  end.

Definition total_files_of `{Runtime} (w : world) (src_folder : string)
    (ignore_dirs ignore_exts ignore_files : option (gset string)) : Z :=
  no_raise (run_body (count_body (default default_ignore_dirs ignore_dirs)
                                 (default default_ignore_exts ignore_exts)
                                 (default default_ignore_files ignore_files))
                     (visits w src_folder ignore_dirs) 0).

Definition pbar_of `{Runtime} (w : world) (src_folder : string)
    (ignore_dirs ignore_exts ignore_files : option (gset string)) : bool :=
  HAS_TQDM w
  && tqdm_bool w (total_files_of w src_folder ignore_dirs ignore_exts ignore_files).

Definition tr0_of `{Runtime} (w : world) (src_folder : string)
    (ignore_dirs ignore_exts ignore_files : option (gset string)) : list effect :=
  if HAS_TQDM w
  then [TqdmOpen (total_files_of w src_folder ignore_dirs ignore_exts ignore_files)]
  else [].

(** The end of the call, from the end of the copy loop. *)
Definition close_run (pbar : bool) (res : (list effect * exn) + list effect) : run :=
  match res with
  | inl (tr, ex) => {| effects := tr; raised := Some ex |}
  | inr tr => {| effects := if pbar then tr ++ [TqdmClose] else tr; raised := None |}
  end.


(** The directories the simulation lists. *)
Definition sim_visits `{Runtime} (test_folder : string) (fs : filesystem) : list visit :=
  match fs test_folder with
  | Some e => yields (keep_dir default_dirs) test_folder e
  | None => []
  end.

(** A body that does not look at [dirs] except to prune. *)
Definition dirs_blind {S E : Type}
    (body : string -> list entry -> list entry -> S -> E + (S * list string)) : Prop :=
  forall root dirs1 dirs2 files s,
    match body root dirs1 files s, body root dirs2 files s with
    | inl e1, inl e2 => e1 = e2
    | inr (s1, _), inr (s2, _) => s1 = s2
    | _, _ => False
    end.

(** ** A small instance of [Runtime], to run the scripts

    Paths in the manner of [ntpath], with [/] and [\] as separators and
    [\] inserted by [join]: enough for the names and the roots used in the
    examples. *)
Module NtLike.

Definition is_sep (c : ascii) : bool :=
  Ascii.eqb c "/"%char || Ascii.eqb c "\"%char.

Fixpoint after_last_sep (acc p : string) : string :=
  match p with
  | EmptyString => acc
  | String c r =>
      if is_sep c then after_last_sep EmptyString r
      else after_last_sep (acc +:+ String c EmptyString) r
  end.

Definition basename (p : string) : string := after_last_sep EmptyString p.

Definition last_is_sep (a : string) : bool :=
  endswith a "/" || endswith a "\" || endswith a ":".

Definition join (a b : string) : string :=
  match b with
  | String c _ =>
      if is_sep c then b
      else if String.eqb a "" || last_is_sep a then a +:+ b
      else a +:+ "\" +:+ b
  | EmptyString =>
      if String.eqb a "" || last_is_sep a then a else a +:+ "\"
  end.

(** [relpath path start] for a [path] that is [start] or lies below it. *)
Definition relpath (path start : string) : string :=
  if String.eqb path start then "."
  else if String.prefix start path then
    substring (String.length start + 1)
              (String.length path - (String.length start + 1)) path
  else path.

Fixpoint ext_from (seen : bool) (acc p : string) : string :=
  match p with
  | EmptyString => acc
  | String c r =>
      if Ascii.eqb c "."%char then
        ext_from seen (if seen then "." else acc) r
      else
        ext_from true
          (if String.eqb acc "" then acc else acc +:+ String c EmptyString) r
  end.

Definition splitext_ext (p : string) : string :=
  ext_from false EmptyString (basename p).

Definition lower_char (c : ascii) : ascii :=
  let n := nat_of_ascii c in
  if ((65 <=? n) && (n <=? 90))%nat then ascii_of_nat (n + 32) else c.

Fixpoint lower (s : string) : string :=
  match s with
  | EmptyString => EmptyString
  | String c r => String (lower_char c) (lower r)
  end.

#[export] Instance runtime : Runtime :=
  Build_Runtime basename join relpath splitext_ext lower.

End NtLike.


(** ** Concrete machines, for the examples

    A project folder [C:/proj] and, when [usb] holds, a removable drive
    [E:]. *)

Definition node_modules : entry :=
  Dir "node_modules" true
    [File "x.js" 1000 true; Dir "build" true [File "y.log" 5 true]].

Definition proj_tree : entry :=
  Dir "proj" true
    [File "a.txt" 10 true;
     node_modules;
     File "b.DLL" 7 true;
     File "c.dll" 8 true;
     Dir "sub" true [File "d.py" 3 true]].

(** The same folder with a file whose size cannot be read, in the root and
    in [node_modules], and with a directory that cannot be listed. *)
Definition faulty_node_modules : entry :=
  Dir "node_modules" true
    [File "x.js" 1000 true; File "gone.js" 300 false].


Definition fs_with (tree : entry) : filesystem :=
  fun path => if String.eqb path "C:/proj" then Some tree else None.

Definition pc (usb : bool) (tree : entry) (mk : string -> bool)
    (cp : string -> string -> option string) : world :=
  {| GetDriveType := fun d => if usb && String.eqb d "E:\" then 2 else 3;
     fs := fs_with tree;
     makedirs := mk;
     copy2 := cp;
     HAS_TQDM := false;
     tqdm_bool := fun total => 0 <? total |}.

Definition always_ok : string -> bool := fun _ => true.
Definition copies : string -> string -> option string := fun _ _ => None.

(** [shutil.copy2] failing on [a.txt]; [os.makedirs] failing on [E:\proj\sub]. *)
Definition disk_full : string -> string -> option string :=
  fun s _ => if String.eqb s "C:/proj\a.txt" then Some "disk full" else None.

Definition no_sub : string -> bool := fun p => negb (String.eqb p "E:\proj\sub").



(** ** The rest of the two scripts, and what the further properties speak of *)

(** The effects of one turn of the copy loop of a real run: the destination
    directory is made, then each file the rules keep is copied into it. *)
Definition visit_trace `{Runtime} (w : world) (src_folder dest_folder : string)
    (ignore_exts ignore_files : gset string) (pbar : bool) (v : visit) : list effect :=
  match v with
  | (root, _, files) =>
      let dest_path := join dest_folder (relpath root src_folder) in
      Makedirs dest_path
      :: flat_map (fun f => copy_file w false pbar root dest_path f [])
                  (List.filter
                     (fun f => negb (excluded_file ignore_exts ignore_files (entry_name f)))
                     files)
  end.

(** The calls one turn makes to the file system. *)
Definition visit_calls `{Runtime} (src_folder dest_folder : string)
    (ignore_exts ignore_files : gset string) (v : visit) : list effect :=
  match v with
  | (root, _, files) =>
      let dest_path := join dest_folder (relpath root src_folder) in
      Makedirs dest_path
      :: map (fun f => Copy2 (join root (entry_name f)) (join dest_path (entry_name f)))
             (List.filter
                (fun f => negb (excluded_file ignore_exts ignore_files (entry_name f)))
                files)
  end.

Definition is_tqdm (ev : effect) : bool :=
  match ev with
  | TqdmOpen _ | TqdmUpdate | TqdmClose => true
  | _ => false
  end.

Definition is_update (ev : effect) : bool :=
  match ev with
  | TqdmUpdate => true
  | _ => false
  end.

Definition is_log (ev : effect) : bool :=
  match ev with
  | LogInfo _ | LogError _ => true
  | _ => false
  end.

(** The record [smart_copy_to_pendrive] logs after a call of [shutil.copy2]. *)
Definition record_of (w : world) (a : string * string) : effect :=
  match copy2 w (fst a) (snd a) with
  | None => LogInfo ("Copied: " +:+ fst a +:+ " -> " +:+ snd a)
  | Some e => LogError ("Failed to copy " +:+ fst a +:+ " to " +:+ snd a +:+ ": " +:+ e)
  end.

(** The same machine with or without [tqdm]. *)
Definition with_tqdm (w : world) (has : bool) (truth : Z -> bool) : world :=
  {| GetDriveType := GetDriveType w;
     fs := fs w;
     makedirs := makedirs w;
     copy2 := copy2 w;
     HAS_TQDM := has;
     tqdm_bool := truth |}.

(** The same machine with another destination: creating directories and
    copying behave differently, the drives and the source are the same. *)
Definition with_destination (w : world) (mk : string -> bool)
    (cp : string -> string -> option string) (has : bool) (truth : Z -> bool) : world :=
  {| GetDriveType := GetDriveType w;
     fs := fs w;
     makedirs := mk;
     copy2 := cp;
     HAS_TQDM := has;
     tqdm_bool := truth |}.

(** The tree without the sub-directories whose name is excluded. *)
Fixpoint without_excluded `{Runtime} (ignore_dirs : gset string) (e : entry) : entry :=
  match e with
  | Dir n l cs =>
      Dir n l
        (flat_map (fun c =>
                     if is_dir c && excluded_dir ignore_dirs (entry_name c) then []
                     else [without_excluded ignore_dirs c]) cs)
  | File _ _ _ => e
  end.

Definition kept_children `{Runtime} (ignore_dirs : gset string) (c : entry) : list entry :=
  if is_dir c && excluded_dir ignore_dirs (entry_name c) then []
  else [without_excluded ignore_dirs c].

Definition fs_without_excluded `{Runtime} (ignore_dirs : gset string) (fs : filesystem)
    : filesystem :=
  fun path =>
    match fs path with
    | Some e => Some (without_excluded ignore_dirs e)
    | None => None
    end.

(** Every file in a directory that can be listed, with the directory it is
    in: what a walk without any rule meets. *)
Fixpoint listed `{Runtime} (root : string) (e : entry) : list (string * entry) :=
  match e with
  | Dir _ true cs =>
      map (pair root) (nondirs cs)
      ++ flat_map (fun c => if is_dir c then listed (join root (entry_name c)) c else []) cs
  | _ => []
  end.

(** *** The end of [simulate_main.py]: the summary and the two tables

    The texts Python prints for a number of bytes as megabytes with two
    decimals, and for one row of a table, come from floating-point division
    and from the format mini-language; they are taken as given. *)
Record formatting := {
  (** [f"{n / (1024*1024):.2f}"] *)
  fmt_mb : Z -> string;
  (** [f"{label:<12}{count:>10}{size/(1024*1024):>15.2f}\n"] *)
  fmt_row : string -> Z -> Z -> string
}.

(** The key [(-x[1]['size'], x[0])] of a row is at most that of another:
    a larger size first, and for equal sizes the smaller extension first
    (strings compare by code point, which for UTF-8 text is byte order). *)
Definition row_key_le (a b : string * ext_stat) : bool :=
  (st_size (snd b) <? st_size (snd a))
  || ((st_size (snd a) =? st_size (snd b)) && String.leb (fst a) (fst b)).

Fixpoint insert_row (x : string * ext_stat) (l : list (string * ext_stat))
    : list (string * ext_stat) :=
  match l with
  | [] => [x]
  | y :: l' => if row_key_le x y then x :: l else y :: insert_row x l'
  end.

(** [sorted(items, key=...)]: a stable sort. *)
Definition sorted_rows (items : list (string * ext_stat)) : list (string * ext_stat) :=
  fold_right insert_row [] items.

(** [ext or '[no ext]'] *)
Definition ext_label (ext : string) : string :=
  if String.eqb ext "" then "[no ext]" else ext.

(** The items of a table in the order [write_ext_table] writes them. *)
Definition table_rows (stats : gmap string ext_stat) : list (string * ext_stat) :=
  sorted_rows (map_to_list stats).

(** [write_ext_table(title, stats)]: the strings it writes. *)
Definition write_ext_table (fmt : formatting) (title : string)
    (stats : gmap string ext_stat) : list string :=
  [nl +:+ "### " +:+ title +:+ nl;
   "Extension        Count      Size (MB)" +:+ nl;
   "-------------------------------------" +:+ nl]
  ++ map (fun x => fmt_row fmt (ext_label (fst x)) (st_count (snd x)) (st_size (snd x)))
         (table_rows stats).

(** A row comes before another: it has the larger size, or the same size
    and the extension that is not the greater. *)
Definition row_before (a b : string * ext_stat) : Prop :=
  st_size (snd b) < st_size (snd a)
  \/ (st_size (snd a) = st_size (snd b) /\ String.leb (fst a) (fst b) = true).

Fixpoint ordered (l : list (string * ext_stat)) : Prop :=
  match l with
  | [] => True
  | x :: l' => Forall (row_before x) l' /\ ordered l'
  end.

(** Everything [simulate_main.py] writes to [simulated_copy_log.txt]. *)
Definition simulated_copy_log `{Runtime} (fmt : formatting) (fs : filesystem)
    (test_folder : string) : list string :=
  let s := simulate_main fs test_folder in
  written s
  ++ [nl +:+ "## Summary" +:+ nl;
      "Total size to copy: " +:+ fmt_mb fmt (total_copy_size s) +:+ " MB" +:+ nl;
      "Total size ignored: " +:+ fmt_mb fmt (total_ignored_size s) +:+ " MB" +:+ nl]
  ++ write_ext_table fmt "Copied Extensions" (copied_ext_stats s)
  ++ write_ext_table fmt "Ignored Extensions" (ignored_ext_stats s).



(** The example machine with [tqdm] installed. *)
Definition pc_tqdm : world :=
  with_tqdm (pc true proj_tree always_ok disk_full) true (fun total => 0 <? total).

(** A table with two extensions. *)
Definition two_exts : gmap string ext_stat :=
  <[".py" := {| st_count := 1; st_size := 120 |}]>
    (<[".md" := {| st_count := 2; st_size := 40 |}]> ∅).



(** [os.walk] yields something for the path: it is a directory that can be
    listed. *)
Definition walkable (fs : filesystem) (path : string) : bool :=
  match fs path with
  | Some (Dir _ true _) => true
  | _ => false
  end.

(** A formatting for a report without files: every size is that of nothing. *)
Definition fmt_nothing : formatting :=
  {| fmt_mb := fun _ => "0.00";
     fmt_row := fun label _ _ => label +:+ nl |}.
(** ** Strings *)

Lemma substring_0_all (s : string) : substring 0 (String.length s) s = s.
Proof. induction s as [|c s IH]; simpl; [reflexivity | now rewrite IH]. Qed.

Lemma length_app_string (a b : string) :
  String.length (a +:+ b) = (String.length a + String.length b)%nat.
Proof. induction a as [|c a IH]; simpl; [reflexivity | now rewrite IH]. Qed.

Lemma substring_skip_app (pre s : string) (m : nat) :
  substring (String.length pre) m (pre +:+ s) = substring 0 m s.
Proof. induction pre as [|c pre IH]; simpl; [reflexivity | exact IH]. Qed.

Lemma substring_split (s : string) (k : nat) :
  (k <= String.length s)%nat ->
  s = substring 0 k s +:+ substring k (String.length s - k) s.
Proof.
  revert k. induction s as [|c s IH]; intros k Hk.
  - destruct k; reflexivity.
  - destruct k as [|k].
    + simpl. now rewrite substring_0_all.
    + simpl in Hk. simpl. change (String c ?a +:+ ?b) with (String c (a +:+ b)).
      f_equal. apply IH. lia.
Qed.

(** [endswith] is the literal suffix test. *)
Lemma endswith_spec (s suffix : string) :
  endswith s suffix = true <-> exists pre, s = pre +:+ suffix.
Proof.
  unfold endswith. rewrite andb_true_iff, Nat.leb_le, String.eqb_eq. split.
  - intros [Hle Hsub]. exists (substring 0 (String.length s - String.length suffix) s).
    pose proof (substring_split s (String.length s - String.length suffix)
                  ltac:(lia)) as Hs.
    replace (String.length s - (String.length s - String.length suffix))%nat
      with (String.length suffix) in Hs by lia.
    rewrite Hsub in Hs. exact Hs.
  - intros [pre ->]. rewrite length_app_string. split; [lia |].
    replace (String.length pre + String.length suffix - String.length suffix)%nat
      with (String.length pre) by lia.
    rewrite substring_skip_app. apply substring_0_all.
Qed.

(** ** The exclusion predicate *)

Section Exclusion.
Context `{Runtime}.

Lemma should_ignore_true_iff (path : string) (ignore_dirs ignore_exts ignore_files : gset string) :
  should_ignore path ignore_dirs ignore_exts ignore_files = true <->
  basename path ∈ ignore_dirs \/ basename path ∈ ignore_files \/
  exists ext, ext ∈ ignore_exts /\ endswith (basename path) ext = true.
Proof.
  unfold should_ignore.
  destruct (bool_decide (basename path ∈ ignore_dirs)) eqn:Hd; simpl.
  { apply bool_decide_eq_true in Hd. tauto. }
  apply bool_decide_eq_false in Hd.
  destruct (bool_decide (basename path ∈ ignore_files)) eqn:Hf; simpl.
  { apply bool_decide_eq_true in Hf. tauto. }
  apply bool_decide_eq_false in Hf.
  destruct (existsb _ (elements ignore_exts)) eqn:Hx.
  - apply existsb_exists in Hx as (ext & Hin & Hend).
    split; [intros _ | reflexivity]. right; right. exists ext. split; [| exact Hend].
    apply elem_of_elements, list_elem_of_In, Hin.
  - split; [discriminate |]. intros [Hd' | [Hf' | (ext & Hin & Hend)]]; [tauto | tauto |].
    assert (existsb (fun ext => endswith (basename path) ext) (elements ignore_exts) = true)
      as Hx'.
    { apply existsb_exists. exists ext. split; [| exact Hend].
      apply list_elem_of_In, elem_of_elements, Hin. }
    congruence.
Qed.

(** Pruning looks at the directory-name set alone. *)
Lemma should_ignore_dirs_only (name : string) (ignore_dirs : gset string) :
  should_ignore name ignore_dirs ∅ ∅ = excluded_dir ignore_dirs name.
Proof.
  unfold should_ignore, excluded_dir. rewrite elements_empty. simpl.
  destruct (bool_decide (basename name ∈ ignore_dirs)); simpl; [reflexivity |].
  rewrite bool_decide_eq_false_2; [reflexivity | set_solver].
Qed.

(** The per-file test looks at the extension and file-name sets alone. *)
Lemma should_ignore_files_only (name : string) (ignore_exts ignore_files : gset string) :
  should_ignore name ∅ ignore_exts ignore_files = excluded_file ignore_exts ignore_files name.
Proof.
  unfold should_ignore, excluded_file.
  rewrite (bool_decide_eq_false_2 (basename name ∈ (∅ : gset string))) by set_solver.
  simpl.
  destruct (bool_decide (basename name ∈ ignore_files)); simpl; [reflexivity |].
  destruct (existsb _ _); reflexivity.
Qed.

(** C3.  [should_ignore] answers true exactly when the base name of the
    path is an element of the directory-name set or of the file-name set
    (string equality, so case matters), or is [pre +:+ ext] for some
    element [ext] of the extension set: a literal suffix, wherever the
    last dot is. *)
Theorem should_ignore_iff (path : string) (ignore_dirs ignore_exts ignore_files : gset string) :
  should_ignore path ignore_dirs ignore_exts ignore_files = true <->
  basename path ∈ ignore_dirs \/ basename path ∈ ignore_files \/
  exists ext pre, ext ∈ ignore_exts /\ basename path = pre +:+ ext.
Proof.
  rewrite should_ignore_true_iff. split.
  - intros [Hd | [Hf | (ext & Hin & Hend)]]; [tauto | tauto |].
    apply endswith_spec in Hend as [pre Hpre]. right; right. eauto.
  - intros [Hd | [Hf | (ext & pre & Hin & Hpre)]]; [tauto | tauto |].
    right; right. exists ext. split; [exact Hin |]. apply endswith_spec. eauto.
Qed.
End Exclusion.

(** The match is case-sensitive and is a plain suffix test. *)
Example upper_case_extension_kept :
  @should_ignore NtLike.runtime "b.DLL" ∅ default_ignore_exts default_ignore_files = false.
Proof. vm_compute. reflexivity. Qed.

Example suffix_without_stem_ignored :
  @should_ignore NtLike.runtime "C:/proj\.cache" ∅ default_ignore_exts default_ignore_files
  = true.
Proof. vm_compute. reflexivity. Qed.

Example name_without_the_dot_kept :
  @should_ignore NtLike.runtime "mycache" ∅ default_ignore_exts default_ignore_files = false.
Proof. vm_compute. reflexivity. Qed.

(** ** The walk *)

(** Induction on a tree of entries. *)
Lemma entry_ind (P : entry -> Prop) :
  (forall n sz ok, P (File n sz ok)) ->
  (forall n l cs, Forall P cs -> P (Dir n l cs)) ->
  forall e, P e.
Proof.
  intros HF HD. fix IH 1. intros [n sz ok | n l cs].
  - apply HF.
  - apply HD. induction cs as [|c cs IHcs]; constructor; [apply IH | exact IHcs].
Qed.

Section WalkFacts.
Context `{Runtime} {S E : Type}.
Variable body : string -> list entry -> list entry -> S -> E + (S * list string).

Lemma os_walk_dir (top n : string) (cs : list entry) (s : S) :
  os_walk body top (Dir n true cs) s =
  match body top (subdirs cs) (nondirs cs) s with
  | inl err => inl err
  | inr (s1, dirs') => descend body top dirs' cs s1
  end.
Proof.
  simpl. destruct (body top (subdirs cs) (nondirs cs) s) as [err | [s1 dirs']];
    [reflexivity |].
  generalize s1. induction cs as [|c cs IH]; intros s2; simpl; [reflexivity |].
  destruct (is_dir c && name_in (entry_name c) dirs'); [| apply IH].
  destruct (os_walk body _ c s2); [reflexivity | apply IH].
Qed.

Lemma run_body_app (l1 l2 : list visit) (s : S) :
  run_body body (l1 ++ l2) s =
  match run_body body l1 s with
  | inl err => inl err
  | inr s1 => run_body body l2 s1
  end.
Proof.
  revert s. induction l1 as [|[[root dirs] files] l1 IH]; intros s; simpl;
    [reflexivity |].
  destruct (body root dirs files s) as [err | [s1 ?]]; [reflexivity | apply IH].
Qed.

(** Among the sub-directories of one listing, a name is in the pruned
    list exactly when [keep] holds of it. *)
Lemma name_in_kept (keep : string -> bool) (cs : list entry) (c : entry) :
  In c cs -> is_dir c = true ->
  name_in (entry_name c)
    (map entry_name (List.filter (fun d => keep (entry_name d)) (subdirs cs)))
  = keep (entry_name c).
Proof.
  intros Hin Hdir. unfold name_in.
  destruct (keep (entry_name c)) eqn:Hk.
  - apply existsb_exists. exists (entry_name c). split; [| apply String.eqb_refl].
    apply in_map, filter_In. split; [| exact Hk].
    apply filter_In. split; assumption.
  - apply not_true_is_false. intros Hex.
    apply existsb_exists in Hex as (x & Hx & Heq).
    apply String.eqb_eq in Heq. subst x.
    apply in_map_iff in Hx as (d & Hd & Hd'). apply filter_In in Hd' as [_ Hkd].
    rewrite Hd in Hkd. congruence.
Qed.

(** The walk is the body run over the triples it hands out. *)
Lemma os_walk_run_body (keep : string -> bool) :
  prunes_by body keep ->
  forall e top s, os_walk body top e s = run_body body (yields keep top e) s.
Proof.
  intros Hprune. induction e as [n sz ok | n l cs IH] using entry_ind; intros top s.
  - reflexivity.
  - destruct l; [| reflexivity].
    rewrite os_walk_dir. cbn [yields run_body].
    destruct (body top (subdirs cs) (nondirs cs) s) as [err | [s1 dirs']] eqn:Hb;
      [reflexivity |].
    apply Hprune in Hb. subst dirs'.
    assert (forall cs', (forall c, In c cs' -> In c cs) ->
              Forall (fun c => forall top s,
                        os_walk body top c s = run_body body (yields keep top c) s) cs' ->
              forall s2,
                descend body top
                  (map entry_name
                     (List.filter (fun d => keep (entry_name d)) (subdirs cs))) cs' s2
                = run_body body
                    (flat_map (fun c => if is_dir c && keep (entry_name c)
                                        then yields keep (join top (entry_name c)) c
                                        else []) cs') s2) as Hdesc.
    { induction cs' as [|c cs' IHcs']; intros Hsub Hall s2; [reflexivity |].
      inversion Hall as [|? ? Hc Hrest]; subst.
      cbn [descend flat_map].
      destruct (is_dir c) eqn:Hdir; cbn [andb].
      - rewrite (name_in_kept keep cs c) by (auto using in_eq).
        destruct (keep (entry_name c)).
        + rewrite run_body_app, Hc.
          destruct (run_body body _ s2); [reflexivity |].
          apply IHcs'; [intros; apply Hsub; now right | exact Hrest].
        + apply IHcs'; [intros; apply Hsub; now right | exact Hrest].
      - apply IHcs'; [intros; apply Hsub; now right | exact Hrest]. }
    apply Hdesc; [auto | exact IH].
Qed.

Lemma walk_path_run_body (keep : string -> bool) (fs : filesystem) (path : string) (s : S) :
  prunes_by body keep ->
  walk_path body fs path s =
  run_body body (match fs path with Some e => yields keep path e | None => [] end) s.
Proof.
  intros Hprune. unfold walk_path. destruct (fs path); [| reflexivity].
  now apply os_walk_run_body.
Qed.
End WalkFacts.

(** ** main.py: the copy loop *)

Lemma attempts_app (a b : list effect) : attempts (a ++ b) = attempts a ++ attempts b.
Proof. unfold attempts. apply flat_map_app. Qed.

Lemma filter_app_list {A : Type} (f : A -> bool) (a b : list A) :
  List.filter f (a ++ b) = List.filter f a ++ List.filter f b.
Proof. induction a as [|x a IH]; simpl; [reflexivity |]. destruct (f x); simpl; now rewrite IH. Qed.

Section CopyLoop.
Context `{Runtime} (w : world) (src_folder dest_folder : string).
Context (D X F : gset string).

Lemma prune_as_filter (dirs : list entry) :
  prune D dirs = map entry_name (List.filter (fun d => keep_dir D (entry_name d)) dirs).
Proof.
  unfold prune, keep_dir. f_equal. apply List.filter_ext. intros d.
  now rewrite should_ignore_dirs_only.
Qed.

Lemma copy_body_prunes (dry_run pbar : bool) :
  prunes_by (copy_body w src_folder dest_folder D X F dry_run pbar) (keep_dir D).
Proof.
  intros root dirs files s s1 dirs'. unfold copy_body.
  destruct (negb dry_run && negb (makedirs w _)); [discriminate |].
  intros [= _ <-]. apply prune_as_filter.
Qed.

Lemma count_body_prunes : prunes_by (count_body D X F) (keep_dir D).
Proof.
  intros root dirs files s s1 dirs'. unfold count_body.
  intros [= _ <-]. apply prune_as_filter.
Qed.

(** The plan is the planned files of the listed directories, in order. *)
Lemma planned_yields (e : entry) :
  forall root, planned D X F root e = flat_map (visit_plan X F) (yields (keep_dir D) root e).
Proof.
  induction e as [n sz ok | n l cs IH] using entry_ind; intros root; [reflexivity |].
  destruct l; [| reflexivity].
  cbn [planned yields flat_map visit_plan]. f_equal.
  induction cs as [|c cs IHcs]; [reflexivity |].
  inversion IH as [|? ? Hc Hrest]; subst.
  cbn [flat_map]. rewrite flat_map_app, IHcs by exact Hrest. f_equal.
  unfold keep_dir at 1.
  destruct (is_dir c && negb (excluded_dir D (entry_name c))); [apply Hc | reflexivity].
Qed.

Lemma copy_file_app (w0 : world) (dry_run pbar : bool) (root dest_path : string)
    (file : entry) (tr : list effect) :
  copy_file w0 dry_run pbar root dest_path file tr =
  tr ++ copy_file w0 dry_run pbar root dest_path file [].
Proof.
  unfold copy_file.
  destruct dry_run, pbar, (copy2 w0 (join root (entry_name file))
                                   (join dest_path (entry_name file)));
    simpl; now rewrite <- ?app_assoc.
Qed.

Lemma copy_files_app (w0 : world) (dry_run pbar : bool) (root dest_path : string)
    (files : list entry) (tr : list effect) :
  copy_files w0 X F dry_run pbar root dest_path files tr =
  tr ++ flat_map (fun f => copy_file w0 dry_run pbar root dest_path f [])
          (List.filter (fun f => negb (excluded_file X F (entry_name f))) files).
Proof.
  revert tr. induction files as [|f files IH]; intros tr; simpl.
  - now rewrite app_nil_r.
  - rewrite should_ignore_files_only.
    destruct (excluded_file X F (entry_name f)); simpl; [apply IH |].
    rewrite IH, copy_file_app, <- app_assoc. reflexivity.
Qed.

(** A dry run: one record per planned file, nothing else. *)
Lemma run_body_dry (l : list visit) (tr : list effect) :
  run_body (copy_body w src_folder dest_folder D X F true false) l tr =
  inr (tr ++ map (would_copy src_folder dest_folder) (flat_map (visit_plan X F) l)).
Proof.
  revert tr. induction l as [|[[root dirs] files] l IH]; intros tr; simpl.
  - now rewrite app_nil_r.
  - rewrite IH, copy_files_app, <- app_assoc, map_app. do 3 f_equal.
    unfold visit_plan.
    induction (List.filter _ files) as [|f fs IHfs]; [reflexivity |].
    cbn [flat_map map app]. rewrite <- IHfs. reflexivity.
Qed.

Lemma attempts_copy_files (pbar : bool) (root dest_path : string) (files : list entry) :
  attempts (flat_map (fun f => copy_file w false pbar root dest_path f []) files) =
  map (fun f => (join root (entry_name f), join dest_path (entry_name f))) files.
Proof.
  induction files as [|f fs IH]; [reflexivity |].
  cbn [flat_map map]. rewrite attempts_app, IH. f_equal.
  unfold copy_file. destruct pbar, (copy2 w _ _); reflexivity.
Qed.

Lemma run_body_exec_cons (w0 : world) (pbar : bool) (root : string)
    (dirs files : list entry) (l : list visit) (tr : list effect) :
  run_body (copy_body w0 src_folder dest_folder D X F false pbar)
           ((root, dirs, files) :: l) tr =
  let dp := join dest_folder (relpath root src_folder) in
  if makedirs w0 dp then
    run_body (copy_body w0 src_folder dest_folder D X F false pbar) l
             (copy_files w0 X F false pbar root dp files (tr ++ [Makedirs dp]))
  else inl (tr ++ [Makedirs dp], OSError dp).
Proof.
  cbn [run_body]. unfold copy_body at 1. cbn [negb andb].
  destruct (makedirs w0 (join dest_folder (relpath root src_folder))); reflexivity.
Qed.

(** A real run.  It ends normally, every planned file attempted in the
    order of the plan; or [os.makedirs] raised at some listed directory,
    and the files of the directories before it are the ones attempted. *)
Lemma run_body_exec (pbar : bool) (l : list visit) (tr : list effect) :
  match run_body (copy_body w src_folder dest_folder D X F false pbar) l tr with
  | inr tr' =>
      attempts tr' =
      attempts tr ++ map (pair_of src_folder dest_folder) (flat_map (visit_plan X F) l)
  | inl (tr', ex) =>
      exists l1 root dirs files l2,
        l = l1 ++ (root, dirs, files) :: l2 /\
        attempts tr' =
        attempts tr ++ map (pair_of src_folder dest_folder) (flat_map (visit_plan X F) l1) /\
        ex = OSError (join dest_folder (relpath root src_folder)) /\
        makedirs w (join dest_folder (relpath root src_folder)) = false
  end.
Proof.
  revert tr. induction l as [|[[root dirs] files] l IH]; intros tr.
  - simpl. now rewrite app_nil_r.
  - cbn [run_body]. unfold copy_body. cbn [negb andb].
    destruct (makedirs w (join dest_folder (relpath root src_folder))) eqn:Hmk; cbn [negb].
    + specialize (IH (copy_files w X F false pbar root
                        (join dest_folder (relpath root src_folder)) files
                        (tr ++ [Makedirs (join dest_folder (relpath root src_folder))]))).
      assert (attempts (copy_files w X F false pbar root
                         (join dest_folder (relpath root src_folder)) files
                         (tr ++ [Makedirs (join dest_folder (relpath root src_folder))]))
              = attempts tr ++ map (pair_of src_folder dest_folder)
                                    (visit_plan X F (root, dirs, files))) as Hatt.
      { rewrite copy_files_app, !attempts_app, attempts_copy_files.
        cbn [attempts flat_map app]. rewrite app_nil_r. f_equal.
        unfold visit_plan. now rewrite map_map. }
      destruct (run_body _ l _) as [[tr' ex] | tr'].
      * destruct IH as (l1 & root' & dirs' & files' & l2 & -> & Ha & -> & Hm).
        exists ((root, dirs, files) :: l1), root', dirs', files', l2.
        repeat split; [| exact Hm].
        rewrite Ha, Hatt. cbn [flat_map]. now rewrite map_app, app_assoc.
      * rewrite IH, Hatt. cbn [flat_map]. now rewrite map_app, app_assoc.
    + exists [], root, dirs, files, l. repeat split; [| exact Hmk].
      rewrite attempts_app. cbn. now rewrite !app_nil_r.
Qed.


End CopyLoop.

(** ** main.py: [smart_copy_to_pendrive] *)

Lemma first_pendrive_none (w : world) (letters : list ascii) :
  (forall letter, In letter letters -> is_pendrive w letter = false) ->
  first_pendrive w letters = None.
Proof.
  induction letters as [|c letters IH]; intros Hall; [reflexivity |].
  simpl. rewrite (Hall c) by now left. apply IH. intros; apply Hall; now right.
Qed.

Lemma find_pendrive_raises (w : world) (e : exn) :
  find_pendrive w = inl e -> e = RuntimeError "No pendrive detected.".
Proof.
  unfold find_pendrive. destruct (first_pendrive w ascii_uppercase); congruence.
Qed.

Lemma first_pendrive_ext (w w' : world) (letters : list ascii) :
  GetDriveType w' = GetDriveType w ->
  first_pendrive w' letters = first_pendrive w letters.
Proof.
  intros Hg. induction letters as [|c letters IH]; [reflexivity |].
  cbn [first_pendrive]. unfold is_pendrive. now rewrite Hg, IH.
Qed.

Lemma find_pendrive_ext (w w' : world) :
  GetDriveType w' = GetDriveType w -> find_pendrive w' = find_pendrive w.
Proof. intros Hg. unfold find_pendrive. now rewrite (first_pendrive_ext w w'). Qed.

Section SmartCopy.
Context `{Runtime} (w : world) (src_folder : string).
Context (ignore_dirs ignore_exts ignore_files : option (gset string)).

Let D := default default_ignore_dirs ignore_dirs.
Let X := default default_ignore_exts ignore_exts.
Let F := default default_ignore_files ignore_files.

Lemma copy_plan_visits :
  copy_plan w src_folder ignore_dirs ignore_exts ignore_files =
  flat_map (visit_plan X F) (visits w src_folder ignore_dirs).
Proof.
  unfold copy_plan, visits. destruct (fs w src_folder); [| reflexivity].
  apply planned_yields.
Qed.

(** A dry run with a drive attached: the records of the plan. *)
Lemma smart_copy_dry (pendrive_root : string) :
  find_pendrive w = inr pendrive_root ->
  smart_copy_to_pendrive w src_folder ignore_dirs ignore_exts ignore_files true =
  {| effects :=
       map (would_copy src_folder (join pendrive_root (basename src_folder)))
           (copy_plan w src_folder ignore_dirs ignore_exts ignore_files);
     raised := None |}.
Proof.
  intros Hp. unfold smart_copy_to_pendrive. rewrite Hp.
  rewrite andb_false_r. cbn [andb].
  rewrite (walk_path_run_body _ (keep_dir D)) by apply copy_body_prunes.
  fold (visits w src_folder ignore_dirs). rewrite run_body_dry. cbn [app].
  now rewrite copy_plan_visits.
Qed.

(** A real run with a drive attached is the copy loop over the listed
    directories, between the opening and the closing of the progress bar. *)
Lemma smart_copy_exec (pendrive_root : string) :
  find_pendrive w = inr pendrive_root ->
  smart_copy_to_pendrive w src_folder ignore_dirs ignore_exts ignore_files false =
  close_run (pbar_of w src_folder ignore_dirs ignore_exts ignore_files)
    (run_body (copy_body w src_folder (join pendrive_root (basename src_folder))
                         D X F false (pbar_of w src_folder ignore_dirs ignore_exts ignore_files))
              (visits w src_folder ignore_dirs) (tr0_of w src_folder ignore_dirs ignore_exts ignore_files)).
Proof.
  intros Hp. unfold smart_copy_to_pendrive. rewrite Hp. cbn [negb]. rewrite andb_true_r.
  rewrite (walk_path_run_body (count_body _ _ _) (keep_dir D)) by apply count_body_prunes.
  rewrite (walk_path_run_body (copy_body _ _ _ _ _ _ _ _) (keep_dir D))
    by apply copy_body_prunes.
  reflexivity.
Qed.

Lemma tr0_of_quiet :
  attempts (tr0_of w src_folder ignore_dirs ignore_exts ignore_files) = [] /\
  List.filter mutates (tr0_of w src_folder ignore_dirs ignore_exts ignore_files) = [].
Proof. unfold tr0_of. destruct (HAS_TQDM w); split; reflexivity. Qed.

Lemma close_run_raised (pbar : bool) (res : (list effect * exn) + list effect) :
  raised (close_run pbar res) = raised_of res.
Proof. destruct res as [[tr ex] | tr]; reflexivity. Qed.

Lemma close_run_attempts (pbar : bool) (res : (list effect * exn) + list effect) :
  attempts (effects (close_run pbar res)) = attempts (trace_of res).
Proof.
  destruct res as [[tr ex] | tr]; [reflexivity |]. simpl.
  destruct pbar; [| reflexivity]. rewrite attempts_app. apply app_nil_r.
Qed.

Lemma close_run_mutates (pbar : bool) (res : (list effect * exn) + list effect) :
  List.filter mutates (effects (close_run pbar res)) = List.filter mutates (trace_of res).
Proof.
  destruct res as [[tr ex] | tr]; [reflexivity |]. simpl.
  destruct pbar; [| reflexivity]. rewrite filter_app_list. apply app_nil_r.
Qed.

End SmartCopy.

(** ** main.py: the run as a whole *)

(** C9.  A dry run on a machine where none of the letters A to Z is a
    removable drive: [find_pendrive] raises ["No pendrive detected."], the
    call leaves with that exception, and it has had no effect at all: no
    record of a file that would be copied, whatever the file system holds. *)
Theorem dry_run_without_pendrive `{Runtime} (w : world) (src_folder : string)
    (ignore_dirs ignore_exts ignore_files : option (gset string)) :
  (forall letter, In letter ascii_uppercase ->
     GetDriveType w (drive_root letter) <> DRIVE_REMOVABLE) ->
  find_pendrive w = inl (RuntimeError "No pendrive detected.") /\
  smart_copy_to_pendrive w src_folder ignore_dirs ignore_exts ignore_files true =
  {| effects := []; raised := Some (RuntimeError "No pendrive detected.") |}.
Proof.
  intros Hnone.
  assert (find_pendrive w = inl (RuntimeError "No pendrive detected.")) as Hfind.
  { unfold find_pendrive. rewrite first_pendrive_none; [reflexivity |].
    intros letter Hin. unfold is_pendrive. apply Z.eqb_neq. now apply Hnone. }
  split; [exact Hfind |].
  unfold smart_copy_to_pendrive. now rewrite Hfind.
Qed.

Lemma dry_run_without_pendrive_witness :
  @smart_copy_to_pendrive NtLike.runtime (pc false proj_tree always_ok copies)
    "C:/proj" None None None true =
  {| effects := []; raised := Some (RuntimeError "No pendrive detected.") |}.
Proof.
  apply (@dry_run_without_pendrive NtLike.runtime (pc false proj_tree always_ok copies)).
  intros letter _. simpl. unfold DRIVE_REMOVABLE. lia.
Defined.





Section Outcomes.
Context `{Runtime} (w : world) (src_folder : string).
Context (ignore_dirs ignore_exts ignore_files : option (gset string)).

Lemma dry_run_completes (pendrive_root : string) :
  find_pendrive w = inr pendrive_root ->
  completed w src_folder ignore_dirs ignore_exts ignore_files true
    (smart_copy_to_pendrive w src_folder ignore_dirs ignore_exts ignore_files true).
Proof.
  intros Hp. rewrite (smart_copy_dry _ _ _ _ _ _ Hp). split; [reflexivity |].
  exists pendrive_root. split; [exact Hp | reflexivity].
Qed.

(** A real run stops early only where [os.makedirs] raised. *)
Lemma real_run_raises_at_makedirs (pendrive_root : string) (ex : exn) :
  find_pendrive w = inr pendrive_root ->
  raised (smart_copy_to_pendrive w src_folder ignore_dirs ignore_exts ignore_files false)
  = Some ex ->
  exists p, ex = OSError p /\ makedirs w p = false.
Proof.
  intros Hp. rewrite (smart_copy_exec _ _ _ _ _ _ Hp), close_run_raised.
  pose proof (run_body_exec w src_folder (join pendrive_root (basename src_folder))
                (default default_ignore_dirs ignore_dirs)
                (default default_ignore_exts ignore_exts)
                (default default_ignore_files ignore_files)
                (pbar_of w src_folder ignore_dirs ignore_exts ignore_files)
                (visits w src_folder ignore_dirs)
                (tr0_of w src_folder ignore_dirs ignore_exts ignore_files)) as Hrun.
  destruct (run_body _ _ _) as [[tr ex'] | tr]; [| discriminate].
  intros [= <-]. destruct Hrun as (? & root & ? & ? & ? & _ & _ & -> & Hmk). eauto.
Qed.

Lemma real_run_completes (pendrive_root : string) :
  find_pendrive w = inr pendrive_root ->
  raised (smart_copy_to_pendrive w src_folder ignore_dirs ignore_exts ignore_files false)
  = None ->
  completed w src_folder ignore_dirs ignore_exts ignore_files false
    (smart_copy_to_pendrive w src_folder ignore_dirs ignore_exts ignore_files false).
Proof.
  intros Hp Hr. split; [exact Hr |]. exists pendrive_root. split; [exact Hp |].
  cbv zeta. revert Hr.
  rewrite (smart_copy_exec _ _ _ _ _ _ Hp), close_run_raised, close_run_attempts.
  pose proof (run_body_exec w src_folder (join pendrive_root (basename src_folder))
                (default default_ignore_dirs ignore_dirs)
                (default default_ignore_exts ignore_exts)
                (default default_ignore_files ignore_files)
                (pbar_of w src_folder ignore_dirs ignore_exts ignore_files)
                (visits w src_folder ignore_dirs)
                (tr0_of w src_folder ignore_dirs ignore_exts ignore_files)) as Hrun.
  destruct (run_body _ _ _) as [[tr ex'] | tr]; [discriminate |].
  intros _. cbn [trace_of]. rewrite Hrun, copy_plan_visits.
  now rewrite (proj1 (tr0_of_quiet w src_folder ignore_dirs ignore_exts ignore_files)).
Qed.

(** A source root that is not there: nothing is listed, nothing is done. *)
Lemma missing_source_root (pendrive_root : string) (dry_run : bool) :
  find_pendrive w = inr pendrive_root ->
  fs w src_folder = None ->
  raised (smart_copy_to_pendrive w src_folder ignore_dirs ignore_exts ignore_files dry_run)
  = None /\
  List.filter mutates
    (effects (smart_copy_to_pendrive w src_folder ignore_dirs ignore_exts ignore_files
                                     dry_run)) = [].
Proof.
  intros Hp Hfs. destruct dry_run.
  - rewrite (smart_copy_dry _ _ _ _ _ _ Hp). unfold copy_plan. rewrite Hfs.
    split; reflexivity.
  - rewrite (smart_copy_exec _ _ _ _ _ _ Hp), close_run_raised, close_run_mutates.
    unfold visits at 1 2. rewrite Hfs. cbn [run_body raised_of trace_of].
    split; [reflexivity | apply tr0_of_quiet].
Qed.
End Outcomes.

(** C4, as amended.  When no creation of a destination directory fails
    (none is attempted in a dry run), a call ends in one of two ways.
    Aborted before start: no removable drive, the exception
    ["No pendrive detected."], and no effect at all.  Completed: the call
    returns, and every planned file has been reported (dry run) or
    attempted (real run), in the order of the plan.  A source root that
    does not exist is not an abort: with a drive attached the call returns
    normally, having touched nothing. *)
Theorem outcomes_when_directories_can_be_made `{Runtime} (w : world) (src_folder : string)
    (ignore_dirs ignore_exts ignore_files : option (gset string)) (dry_run : bool) :
  (dry_run = false -> forall p, makedirs w p = true) ->
  let r := smart_copy_to_pendrive w src_folder ignore_dirs ignore_exts ignore_files
             dry_run in
  ((find_pendrive w = inl (RuntimeError "No pendrive detected.") /\
    raised r = Some (RuntimeError "No pendrive detected.") /\ effects r = [])
   \/ completed w src_folder ignore_dirs ignore_exts ignore_files dry_run r) /\
  (forall pendrive_root,
      find_pendrive w = inr pendrive_root -> fs w src_folder = None ->
      raised r = None /\ List.filter mutates (effects r) = []).
Proof.
  intros Hmk r. subst r. split.
  - destruct (find_pendrive w) as [ex | root] eqn:Hp.
    + left. apply find_pendrive_raises in Hp as Hex. subst ex.
      unfold smart_copy_to_pendrive. rewrite Hp. repeat split.
    + right. destruct dry_run; [now apply (dry_run_completes _ _ _ _ _ root) |].
      apply (real_run_completes _ _ _ _ _ root Hp).
      destruct (raised _) as [ex |] eqn:Hr; [| reflexivity].
      destruct (real_run_raises_at_makedirs _ _ _ _ _ root ex Hp Hr) as (p & _ & Hp').
      rewrite Hmk in Hp' by reflexivity. discriminate.
  - intros root Hp Hfs. now apply (missing_source_root _ _ _ _ _ root).
Qed.

Lemma outcomes_when_directories_can_be_made_witness :
  completed (H := NtLike.runtime) (pc true proj_tree always_ok copies)
    "C:/proj" None None None false
    (@smart_copy_to_pendrive NtLike.runtime (pc true proj_tree always_ok copies)
       "C:/proj" None None None false).
Proof.
  destruct (@outcomes_when_directories_can_be_made NtLike.runtime
              (pc true proj_tree always_ok copies) "C:/proj" None None None false)
    as [[(Hno & _) | Hdone] _].
  - intros _ p. reflexivity.
  - vm_compute in Hno. discriminate.
  - exact Hdone.
Defined.

(** C4, as stated, fails.  With [E:\proj\sub] impossible to create, the real
    run copies the files of the root, then leaves with [OSError]: it is
    neither completed nor aborted before start, and [sub\d.py] is never
    attempted.  And with a source root that does not exist the call is not
    aborted: it returns normally. *)
Lemma partial_run_counterexample :
  let r := @smart_copy_to_pendrive NtLike.runtime (pc true proj_tree no_sub copies)
             "C:/proj" None None None false in
  let r2 := @smart_copy_to_pendrive NtLike.runtime (pc true proj_tree always_ok copies)
              "C:/gone" None None None false in
  ~ (completed (H := NtLike.runtime) (pc true proj_tree no_sub copies)
       "C:/proj" None None None false r \/ aborted_before_start r) /\
  raised r = Some (OSError "E:\proj\sub") /\
  In (Copy2 "C:/proj\a.txt" "E:\proj\.\a.txt") (effects r) /\
  ~ In ("C:/proj\sub\d.py", "E:\proj\sub\d.py") (attempts (effects r)) /\
  fs (pc true proj_tree always_ok copies) "C:/gone" = None /\
  ~ aborted_before_start r2.
Proof.
  cbv zeta. split; [| split; [| split; [| split; [| split]]]].
  - intros [[Hr _] | [_ He]]; [vm_compute in Hr | vm_compute in He]; discriminate.
  - vm_compute. reflexivity.
  - vm_compute. tauto.
  - vm_compute. intuition discriminate.
  - vm_compute. reflexivity.
  - intros [Hr _]. apply Hr. vm_compute. reflexivity.
Qed.

(** ** simulate_main.py: the state as the replay of its updates *)

Lemma sum_events_app (a b : list event) :
  sum_events (a ++ b) = sum_events a + sum_events b.
Proof. induction a as [|ev a IH]; simpl; [reflexivity | rewrite IH; lia]. Qed.

Lemma replay_nil (s : sim_state) : replay [] [] s = s.
Proof.
  destruct s. unfold replay. simpl. f_equal; try apply Z.add_0_r; apply app_nil_r.
Qed.

Lemma replay_app (evs1 evs2 : list event) (ls1 ls2 : list string) (s : sim_state) :
  replay evs2 ls2 (replay evs1 ls1 s) = replay (evs1 ++ evs2) (ls1 ++ ls2) s.
Proof.
  unfold replay. simpl.
  rewrite !filter_app_list, !sum_events_app, !fold_left_app, !app_assoc, !Z.add_assoc.
  reflexivity.
Qed.

Lemma count_ignored_replay (at_ : site) (src_file : string) (sz : Z) (ext : string)
    (s : sim_state) :
  count_ignored at_ src_file sz ext s =
  replay [{| ev_site := at_; ev_bucket := Ignored; ev_file := src_file;
             ev_size := sz; ev_ext := ext |}] [] s.
Proof.
  unfold count_ignored, replay. simpl.
  rewrite !Z.add_0_r, app_nil_r. reflexivity.
Qed.

Lemma count_copied_replay (line src_file : string) (sz : Z) (ext : string)
    (s : sim_state) :
  count_copied line src_file sz ext s =
  replay [{| ev_site := PerFile; ev_bucket := Copied; ev_file := src_file;
             ev_size := sz; ev_ext := ext |}] [line] s.
Proof.
  unfold count_copied, replay. simpl. rewrite !Z.add_0_r. reflexivity.
Qed.

Lemma getsize_Some (f : entry) (sz : Z) :
  getsize f = Some sz -> file_size f = sz /\ statable f = true.
Proof.
  unfold statable. destruct f as [n sz' [] | n l cs]; simpl; try discriminate.
  intros [= ->]. split; reflexivity.
Qed.

Lemma getsize_None (f : entry) : getsize f = None -> statable f = false.
Proof. unfold statable. now intros ->. Qed.

Lemma name_in_filter (keep : string -> bool) (l : list entry) (d : entry) :
  In d l ->
  name_in (entry_name d)
    (map entry_name (List.filter (fun x => keep (entry_name x)) l))
  = keep (entry_name d).
Proof.
  intros Hin. unfold name_in. destruct (keep (entry_name d)) eqn:Hk.
  - apply existsb_exists. exists (entry_name d). split; [| apply String.eqb_refl].
    apply in_map, filter_In. now split.
  - apply not_true_is_false. intros Hex.
    apply existsb_exists in Hex as (x & Hx & Heq).
    apply String.eqb_eq in Heq. subst x.
    apply in_map_iff in Hx as (d' & Hd & Hd'). apply filter_In in Hd' as [_ Hkd].
    rewrite Hd in Hkd. congruence.
Qed.

Section SimLoop.
Context `{Runtime} (test_folder : string).

Lemma add_files_ignored_replay (root : string) (files : list entry) (s : sim_state) :
  add_files_ignored root files s =
  replay (map (census_event true root) (List.filter statable files)) [] s.
Proof.
  revert s. induction files as [|f files IH]; intros s.
  - simpl. now rewrite replay_nil.
  - cbn [add_files_ignored List.filter]. destruct (getsize f) as [sz |] eqn:Hsz.
    + apply getsize_Some in Hsz as [Hfs Hst]. rewrite Hst, IH, count_ignored_replay.
      rewrite replay_app. cbn [map app]. unfold census_event at 2. cbn [orb].
      now rewrite Hfs.
    + apply getsize_None in Hsz. rewrite Hsz. apply IH.
Qed.

Lemma add_dir_body_prunes : prunes_by add_dir_body keep_all.
Proof.
  intros root dirs files s s1 dirs'. unfold add_dir_body. intros [= _ <-].
  f_equal. induction dirs as [|d dirs IH]; [reflexivity |]. simpl. now f_equal.
Qed.

Lemma run_body_add_dir (l : list visit) (s : sim_state) :
  run_body add_dir_body l s = inr (replay (flat_map visit_aggregated l) [] s).
Proof.
  revert s. induction l as [|[[root dirs] files] l IH]; intros s.
  - simpl. now rewrite replay_nil.
  - cbn [run_body add_dir_body flat_map]. unfold add_dir_body.
    rewrite IH, add_files_ignored_replay, replay_app. reflexivity.
Qed.

Lemma add_dir_ignored_stats_replay (dir_path : string) (d : entry) (s : sim_state) :
  add_dir_ignored_stats dir_path d s = replay (aggregated dir_path d) [] s.
Proof.
  unfold add_dir_ignored_stats.
  rewrite (os_walk_run_body add_dir_body keep_all add_dir_body_prunes).
  now rewrite run_body_add_dir.
Qed.

Lemma add_ignored_dirs_replay (root : string) (ds : list entry) (s : sim_state) :
  add_ignored_dirs root ds s =
  replay (flat_map (fun d => aggregated (join root (entry_name d)) d) ds) [] s.
Proof.
  revert s. induction ds as [|d ds IH]; intros s.
  - simpl. now rewrite replay_nil.
  - cbn [add_ignored_dirs flat_map].
    rewrite IH, add_dir_ignored_stats_replay, replay_app. reflexivity.
Qed.

Lemma sim_files_replay (root : string) (dirs files : list entry) (s : sim_state) :
  sim_files root (relpath root test_folder) files s =
  replay (map (census_event false root) (List.filter statable files))
         (visit_lines test_folder (root, dirs, files)) s.
Proof.
  unfold visit_lines, visit_plan. revert s.
  induction files as [|f files IH]; intros s.
  - simpl. now rewrite replay_nil.
  - cbn [sim_files List.filter]. destruct (getsize f) as [sz |] eqn:Hsz.
    + apply getsize_Some in Hsz as [Hfs Hst]. rewrite Hst.
      rewrite should_ignore_files_only.
      destruct (excluded_file default_exts default_files (entry_name f)) eqn:Hex;
        cbn [negb map List.filter].
      * rewrite IH, count_ignored_replay, replay_app. cbn [map app].
        unfold census_event at 2. rewrite Hex. cbn [orb]. now rewrite Hfs.
      * cbn [snd]. rewrite Hst. rewrite IH, count_copied_replay, replay_app.
        cbn [map app]. unfold census_event at 2. rewrite Hex. cbn [orb].
        now rewrite Hfs.
    + apply getsize_None in Hsz. rewrite Hsz.
      destruct (excluded_file default_exts default_files (entry_name f));
        cbn [negb map List.filter snd]; rewrite ?Hsz; apply IH.
Qed.

Lemma sim_body_replay (root : string) (dirs files : list entry) (s : sim_state) :
  sim_body test_folder root dirs files s =
  inr (replay (visit_events (root, dirs, files))
              (visit_lines test_folder (root, dirs, files)) s,
       map entry_name
           (List.filter (fun d => keep_dir default_dirs (entry_name d)) dirs)).
Proof.
  unfold sim_body. f_equal. f_equal.
  - rewrite (sim_files_replay root dirs), add_ignored_dirs_replay, replay_app.
    unfold visit_events. cbn [app]. do 3 f_equal.
    apply List.filter_ext. intros d. apply should_ignore_dirs_only.
  - f_equal. apply List.filter_ext_in. intros d Hd.
    rewrite (name_in_filter (fun n => should_ignore n default_dirs ∅ ∅) dirs d Hd).
    unfold keep_dir. now rewrite should_ignore_dirs_only.
Qed.

Lemma sim_body_prunes : prunes_by (sim_body test_folder) (keep_dir default_dirs).
Proof.
  intros root dirs files s s1 dirs'. rewrite sim_body_replay. now intros [= _ <-].
Qed.

Lemma run_body_sim (l : list visit) (s : sim_state) :
  run_body (sim_body test_folder) l s =
  inr (replay (flat_map visit_events l) (flat_map (visit_lines test_folder) l) s).
Proof.
  revert s. induction l as [|[[root dirs] files] l IH]; intros s.
  - simpl. now rewrite replay_nil.
  - cbn [run_body flat_map]. rewrite sim_body_replay, IH, replay_app. reflexivity.
Qed.

Lemma simulate_main_replay (fs : filesystem) :
  simulate_main fs test_folder =
  replay (flat_map visit_events (sim_visits test_folder fs))
         (flat_map (visit_lines test_folder) (sim_visits test_folder fs)) sim_init.
Proof.
  unfold simulate_main.
  rewrite (walk_path_run_body _ (keep_dir default_dirs)) by apply sim_body_prunes.
  fold (sim_visits test_folder fs). now rewrite run_body_sim.
Qed.
End SimLoop.


(** ** The walk and the files of the tree *)

Lemma flat_map_flat_map {A B C : Type} (f : B -> list C) (g : A -> list B) (l : list A) :
  flat_map f (flat_map g l) = flat_map (fun x => flat_map f (g x)) l.
Proof.
  induction l as [|x l IH]; [reflexivity |]. cbn [flat_map].
  now rewrite flat_map_app, IH.
Qed.

Lemma map_flat_map {A B C : Type} (f : B -> C) (g : A -> list B) (l : list A) :
  map f (flat_map g l) = flat_map (fun x => map f (g x)) l.
Proof.
  induction l as [|x l IH]; [reflexivity |]. cbn [flat_map].
  now rewrite map_app, IH.
Qed.

Lemma filter_flat_map {A B : Type} (p : B -> bool) (g : A -> list B) (l : list A) :
  List.filter p (flat_map g l) = flat_map (fun x => List.filter p (g x)) l.
Proof.
  induction l as [|x l IH]; [reflexivity |]. cbn [flat_map].
  now rewrite filter_app_list, IH.
Qed.

Lemma flat_map_ext_Forall {A B : Type} (f g : A -> list B) (l : list A) :
  Forall (fun x => f x = g x) l -> flat_map f l = flat_map g l.
Proof.
  induction 1 as [|x l Hx _ IH]; [reflexivity |]. cbn [flat_map]. now rewrite Hx, IH.
Qed.

Section TreeFacts.
Context `{Runtime}.

(** The sum over a pruned directory meets every visible file below it, in
    the order of the walk. *)
Lemma aggregated_census (d : entry) :
  forall dir_path, aggregated dir_path d = census true dir_path d.
Proof.
  induction d as [n sz ok | n l cs IH] using entry_ind; intros dir_path; [reflexivity |].
  destruct l; [| reflexivity].
  unfold aggregated. cbn [yields flat_map census visit_aggregated]. f_equal.
  rewrite flat_map_flat_map. apply flat_map_ext_Forall.
  eapply Forall_impl; [exact IH |]. intros c Hc. cbn beta in *.
  unfold keep_all. rewrite andb_true_r. cbn [orb].
  destruct (is_dir c); [apply Hc | reflexivity].
Qed.

Lemma census_keys (e : entry) :
  forall pruned root, map ev_key (census pruned root e) = visible_files root e.
Proof.
  induction e as [n sz ok | n l cs IH] using entry_ind; intros pruned root;
    [reflexivity |].
  destruct l; [| reflexivity].
  cbn [census visible_files]. rewrite map_app, map_map, map_flat_map. f_equal.
  apply flat_map_ext_Forall. eapply Forall_impl; [exact IH |]. intros c Hc. cbn beta.
  destruct (is_dir c); [apply Hc | reflexivity].
Qed.

Lemma census_pruned_ignored (e : entry) :
  forall root, Forall (fun ev => ev_site ev = Aggregated /\ ev_bucket ev = Ignored)
                      (census true root e).
Proof.
  induction e as [n sz ok | n l cs IH] using entry_ind; intros root; [constructor |].
  destruct l; [| constructor].
  cbn [census orb]. apply Forall_app. split.
  - apply Forall_forall. intros ev Hev. apply list_elem_of_In, in_map_iff in Hev.
    destruct Hev as (f & <- & _). split; reflexivity.
  - induction cs as [|c cs IHcs]; [constructor |].
    inversion IH as [|? ? Hc Hrest]; subst. cbn [flat_map]. apply Forall_app. split.
    + destruct (is_dir c); [apply Hc | constructor].
    + now apply IHcs.
Qed.

Lemma sum_events_keys (evs : list event) :
  sum_events evs = sum_sizes (map ev_key evs).
Proof. induction evs as [|ev evs IH]; simpl; [reflexivity | now rewrite IH]. Qed.

Lemma filter_all {A : Type} (p : A -> bool) (l : list A) :
  Forall (fun x => p x = true) l -> List.filter p l = l.
Proof.
  induction 1 as [|x l Hx _ IH]; [reflexivity |]. simpl. now rewrite Hx, IH.
Qed.

Lemma filter_none {A : Type} (p : A -> bool) (l : list A) :
  Forall (fun x => p x = false) l -> List.filter p l = [].
Proof.
  induction 1 as [|x l Hx _ IH]; [reflexivity |]. simpl. now rewrite Hx, IH.
Qed.

(** Where everything can be read, the visible files are all the files. *)
Lemma visible_all (e : entry) :
  all_readable e = true -> forall root, visible_files root e = all_files root e.
Proof.
  induction e as [n sz ok | n l cs IH] using entry_ind; intros Hall root; [reflexivity |].
  cbn [all_readable] in Hall. apply andb_true_iff in Hall as [-> Hcs].
  rewrite forallb_forall in Hcs. cbn [visible_files all_files]. f_equal.
  - f_equal. apply filter_all. apply Forall_forall. intros f Hf.
    apply list_elem_of_In, filter_In in Hf as [Hin Hnd].
    specialize (Hcs f Hin). destruct f as [? ? ok | ? ? ?]; [| discriminate].
    simpl in Hcs. subst ok. reflexivity.
  - apply flat_map_ext_Forall. rewrite Forall_forall in IH |- *. intros c Hc.
    destruct (is_dir c); [| reflexivity].
    apply IH; [exact Hc |]. apply Hcs. now apply list_elem_of_In.
Qed.

End TreeFacts.

(** ** simulate_main.py: what is counted *)

(** C2, as amended.  [add_dir_ignored_stats], which the walk calls on each
    directory it prunes, adds to the ignored total the sizes of the files
    below that directory that the walk can see (directories that can be
    listed, sizes that can be read), at every depth and whatever their
    names, each once: the updates it makes are those files, in order, all in
    the ignored bucket.  Where everything below the directory can be read,
    that is the sum of the sizes of all the files below it. *)
Theorem pruned_directory_total `{Runtime} (dir_path : string) (d : entry) (s : sim_state) :
  let s' := add_dir_ignored_stats dir_path d s in
  total_ignored_size s' = total_ignored_size s + sum_sizes (visible_files dir_path d) /\
  total_copy_size s' = total_copy_size s /\
  (exists evs,
      counted s' = counted s ++ evs /\
      map ev_key evs = visible_files dir_path d /\
      Forall (fun ev => ev_site ev = Aggregated /\ ev_bucket ev = Ignored) evs) /\
  (all_readable d = true ->
   total_ignored_size s' = total_ignored_size s + sum_sizes (all_files dir_path d)).
Proof.
  cbv zeta. rewrite add_dir_ignored_stats_replay, aggregated_census.
  pose proof (census_pruned_ignored d dir_path) as Hign.
  assert (List.filter is_ignored (census true dir_path d) = census true dir_path d) as Hall.
  { apply filter_all. eapply Forall_impl; [exact Hign |]. intros ev [_ Hb].
    unfold is_ignored, is_copied. now rewrite Hb. }
  assert (List.filter is_copied (census true dir_path d) = []) as Hnone.
  { apply filter_none. eapply Forall_impl; [exact Hign |]. intros ev [_ Hb].
    unfold is_copied. now rewrite Hb. }
  assert (total_ignored_size (replay (census true dir_path d) [] s) =
          total_ignored_size s + sum_sizes (visible_files dir_path d)) as Htotal.
  { cbn [replay total_ignored_size]. now rewrite Hall, sum_events_keys, census_keys. }
  split; [exact Htotal |]. split; [| split].
  - cbn [replay total_copy_size]. rewrite Hnone. apply Z.add_0_r.
  - exists (census true dir_path d). split; [reflexivity |]. split; [apply census_keys |].
    exact Hign.
  - intros Hread. rewrite Htotal. now rewrite visible_all.
Qed.

Lemma pruned_directory_total_witness :
  total_ignored_size
    (@add_dir_ignored_stats NtLike.runtime "C:/proj\node_modules" node_modules sim_init)
  = total_ignored_size sim_init
    + sum_sizes (@all_files NtLike.runtime "C:/proj\node_modules" node_modules).
Proof.
  apply (@pruned_directory_total NtLike.runtime "C:/proj\node_modules" node_modules
           sim_init).
  reflexivity.
Defined.

(** C2, as stated, fails: [gone.js] lies below the pruned [node_modules],
    its 300 bytes are there, and they are not in the ignored total, because
    its size cannot be read. *)
Lemma unreadable_size_not_summed :
  let s := @add_dir_ignored_stats NtLike.runtime "C:/proj\node_modules"
             faulty_node_modules sim_init in
  In ("C:/proj\node_modules\gone.js", 300)
     (@all_files NtLike.runtime "C:/proj\node_modules" faulty_node_modules) /\
  total_ignored_size s = 1000 /\
  sum_sizes (@all_files NtLike.runtime "C:/proj\node_modules" faulty_node_modules) = 1300 /\
  total_ignored_size s <>
  total_ignored_size sim_init
  + sum_sizes (@all_files NtLike.runtime "C:/proj\node_modules" faulty_node_modules).
Proof.
  cbv zeta. split; [| split; [| split]].
  - vm_compute. tauto.
  - vm_compute. reflexivity.
  - vm_compute. reflexivity.
  - vm_compute. discriminate.
Qed.




(** ** The records of the files that would be copied *)

Section Records.
Context `{Runtime}.

Lemma sim_lines_planned (test_folder : string) (e : entry) (top : string) :
  flat_map (visit_lines test_folder) (yields (keep_dir default_dirs) top e) =
  map (report_line test_folder)
      (List.filter (fun p => statable (snd p))
                   (planned default_dirs default_exts default_files top e)).
Proof.
  rewrite planned_yields, filter_flat_map, map_flat_map. reflexivity.
Qed.




Lemma simulate_main_written (fs : filesystem) (test_folder : string) :
  written (simulate_main fs test_folder) =
  report_header ++
  map (report_line test_folder)
      (List.filter (fun p => statable (snd p))
         (match fs test_folder with
          | Some e => planned default_dirs default_exts default_files test_folder e
          | None => []
          end)).
Proof.
  rewrite simulate_main_replay. cbn [replay written sim_init]. f_equal.
  unfold sim_visits. destruct (fs test_folder); [| reflexivity].
  apply sim_lines_planned.
Qed.

End Records.




(** ** Dry run, real run and simulation *)





(** ** Which set each decision consults *)


Section Separation.
Context `{Runtime} (w : world) (src_folder dest_folder : string).
Context (D X F : gset string) (dry_run pbar : bool).

Let B := copy_body w src_folder dest_folder D X F dry_run pbar.




End Separation.

Section SimSeparation.
Context `{Runtime} (test_folder : string).



End SimSeparation.



(** ** What cannot be read is skipped without a trace *)

Section Unreadable.
Context `{Runtime}.









End Unreadable.

Section UnreadableCopy.
Context `{Runtime}.

Lemma run_body_dirs_blind {S E : Type}
    (body : string -> list entry -> list entry -> S -> E + (S * list string)) :
  dirs_blind body ->
  forall l1 l2 s,
    flat_map root_and_files l1 = flat_map root_and_files l2 ->
    run_body body l1 s = run_body body l2 s.
Proof.
  intros Hblind. induction l1 as [|[[root dirs1] files] l1 IH];
    intros [|[[root2 dirs2] files2] l2] s Heq; try discriminate; [reflexivity |].
  cbn in Heq. injection Heq as <- <- Heq. cbn [run_body].
  specialize (Hblind root dirs1 dirs2 files s).
  destruct (body root dirs1 files s) as [e1 | [s1 ?]],
           (body root dirs2 files s) as [e2 | [s2 ?]]; try contradiction.
  - now subst.
  - subst. now apply IH.
Qed.

Lemma run_body_ext {S E : Type}
    (body1 body2 : string -> list entry -> list entry -> S -> E + (S * list string)) :
  (forall root dirs files s, body1 root dirs files s = body2 root dirs files s) ->
  forall l s, run_body body1 l s = run_body body2 l s.
Proof.
  intros Hext. induction l as [|[[root dirs] files] l IH]; intros s; [reflexivity |].
  cbn [run_body]. rewrite Hext.
  destruct (body2 root dirs files s) as [e | [s1 ?]]; [reflexivity | apply IH].
Qed.

Lemma copy_files_with_fs (w : world) (fs' : filesystem) (X F : gset string)
    (dry_run pbar : bool) (root dest_path : string) (files : list entry) (tr : list effect) :
  copy_files (with_fs w fs') X F dry_run pbar root dest_path files tr =
  copy_files w X F dry_run pbar root dest_path files tr.
Proof.
  revert tr. induction files as [|f files IH]; intros tr; [reflexivity |].
  cbn [copy_files]. destruct (should_ignore _ _ _ _); rewrite IH; reflexivity.
Qed.

Lemma copy_body_with_fs (w : world) (fs' : filesystem) (src_folder dest_folder : string)
    (D X F : gset string) (dry_run pbar : bool) (root : string) (dirs files : list entry)
    (tr : list effect) :
  copy_body (with_fs w fs') src_folder dest_folder D X F dry_run pbar root dirs files tr =
  copy_body w src_folder dest_folder D X F dry_run pbar root dirs files tr.
Proof. unfold copy_body. now rewrite copy_files_with_fs. Qed.

Lemma copy_body_dirs_blind (w : world) (src_folder dest_folder : string)
    (D X F : gset string) (dry_run pbar : bool) :
  dirs_blind (copy_body w src_folder dest_folder D X F dry_run pbar).
Proof.
  intros root dirs1 dirs2 files tr. unfold copy_body.
  destruct (negb dry_run && negb (makedirs w _)); reflexivity.
Qed.

Lemma count_body_dirs_blind (D X F : gset string) : dirs_blind (count_body D X F).
Proof. intros root dirs1 dirs2 files s. reflexivity. Qed.


End UnreadableCopy.

(** ** Errors: what is recorded and what is not *)




(** * Further properties of the two scripts *)

(** ** [find_pendrive] *)

Lemma is_pendrive_iff (w : world) (letter : ascii) :
  is_pendrive w letter = true <-> GetDriveType w (drive_root letter) = DRIVE_REMOVABLE.
Proof. unfold is_pendrive. apply Z.eqb_eq. Qed.

Lemma first_pendrive_some (w : world) (letters : list ascii) (root : string) :
  first_pendrive w letters = Some root <->
  exists before letter after,
    letters = before ++ letter :: after /\
    root = drive_root letter /\
    is_pendrive w letter = true /\
    Forall (fun l => is_pendrive w l = false) before.
Proof.
  induction letters as [|c letters IH].
  - split; [discriminate |]. intros (before & letter & after & Heq & _).
    now destruct before.
  - cbn [first_pendrive]. destruct (is_pendrive w c) eqn:Hc.
    + split.
      * intros [= <-]. exists [], c, letters.
        split; [reflexivity |]. split; [reflexivity |]. split; [exact Hc | constructor].
      * intros (before & letter & after & Heq & -> & Hl & Hb).
        destruct before as [|b before]; cbn in Heq; injection Heq as <- _;
          [reflexivity |].
        inversion Hb; subst. congruence.
    + rewrite IH. split.
      * intros (before & letter & after & -> & -> & Hl & Hb).
        exists (c :: before), letter, after. repeat split; [exact Hl |].
        constructor; assumption.
      * intros (before & letter & after & Heq & -> & Hl & Hb).
        destruct before as [|b before]; cbn in Heq; injection Heq as <- Heq.
        -- congruence.
        -- inversion Hb; subst. exists before, letter, after. repeat split; assumption.
Qed.

(** X1.  [find_pendrive] returns the root ["X:\"] of the first letter, in the
    order A to Z, whose drive type is [DRIVE_REMOVABLE]: every letter before
    it has another type.  It raises ["No pendrive detected."] exactly when
    no letter has that type, and it raises nothing else. *)
Theorem find_pendrive_first (w : world) :
  (forall root,
      find_pendrive w = inr root <->
      exists before letter after,
        ascii_uppercase = before ++ letter :: after /\
        root = drive_root letter /\
        GetDriveType w (drive_root letter) = DRIVE_REMOVABLE /\
        Forall (fun l => GetDriveType w (drive_root l) <> DRIVE_REMOVABLE) before) /\
  (forall ex,
      find_pendrive w = inl ex <->
      ex = RuntimeError "No pendrive detected." /\
      forall letter, In letter ascii_uppercase ->
                     GetDriveType w (drive_root letter) <> DRIVE_REMOVABLE).
Proof.
  split.
  - intros root. unfold find_pendrive.
    destruct (first_pendrive w ascii_uppercase) as [r |] eqn:Hf.
    + split.
      * intros [= <-]. apply first_pendrive_some in Hf
          as (before & letter & after & Heq & -> & Hl & Hb).
        exists before, letter, after. repeat split; [exact Heq | now apply is_pendrive_iff |].
        eapply Forall_impl; [exact Hb |]. intros l Hl' Hrem.
        apply is_pendrive_iff in Hrem. congruence.
      * intros (before & letter & after & Heq & -> & Hl & Hb). f_equal.
        assert (first_pendrive w ascii_uppercase = Some (drive_root letter)) as Hf'.
        { apply first_pendrive_some. exists before, letter, after.
          repeat split; [exact Heq | now apply is_pendrive_iff |].
          eapply Forall_impl; [exact Hb |]. intros l Hl'.
          destruct (is_pendrive w l) eqn:Hp; [| reflexivity].
          apply is_pendrive_iff in Hp. contradiction. }
        congruence.
    + split; [discriminate |].
      intros (before & letter & after & Heq & -> & Hl & Hb). exfalso.
      assert (first_pendrive w ascii_uppercase = Some (drive_root letter)) as Hf'.
      { apply first_pendrive_some. exists before, letter, after.
        repeat split; [exact Heq | now apply is_pendrive_iff |].
        eapply Forall_impl; [exact Hb |]. intros l Hl'.
        destruct (is_pendrive w l) eqn:Hp; [| reflexivity].
        apply is_pendrive_iff in Hp. contradiction. }
      congruence.
  - intros ex. unfold find_pendrive.
    destruct (first_pendrive w ascii_uppercase) as [r |] eqn:Hf.
    + split; [discriminate |]. intros [_ Hnone]. exfalso.
      apply first_pendrive_some in Hf as (before & letter & after & Heq & _ & Hl & _).
      apply is_pendrive_iff in Hl. apply (Hnone letter); [| exact Hl].
      rewrite Heq. apply in_app_iff. right. now left.
    + split.
      * intros [= <-]. split; [reflexivity |]. intros letter Hin Hrem.
        apply is_pendrive_iff in Hrem. apply in_split in Hin as (l1 & l2 & Heq).
        assert (exists r, first_pendrive w ascii_uppercase = Some r) as [r Hr];
          [| congruence].
        rewrite Heq. clear Heq Hf. induction l1 as [|c l1 IH]; cbn [app first_pendrive].
        -- rewrite Hrem. eauto.
        -- destruct (is_pendrive w c); eauto.
      * intros [-> _]. reflexivity.
Qed.

(** ** [should_ignore]: edges and composition *)

Lemma append_empty_r (s : string) : s +:+ "" = s.
Proof.
  induction s as [|c s IH]; [reflexivity |].
  change (String c s +:+ "") with (String c (s +:+ "")). now rewrite IH.
Qed.

(** X2.  An empty string among the extensions excludes everything: every
    name ends with it. *)
Theorem empty_extension_excludes_all `{Runtime} (path : string)
    (ignore_dirs ignore_exts ignore_files : gset string) :
  "" ∈ ignore_exts ->
  should_ignore path ignore_dirs ignore_exts ignore_files = true.
Proof.
  intros Hin. apply should_ignore_true_iff. right; right. exists "". split; [exact Hin |].
  apply endswith_spec. exists (basename path). now rewrite append_empty_r.
Qed.

Lemma empty_extension_excludes_all_witness :
  @should_ignore NtLike.runtime "C:/proj\a.txt" ∅ {[ "" ]} ∅ = true.
Proof.
  apply (@empty_extension_excludes_all NtLike.runtime). set_solver.
Defined.

(** X3.  The predicate is the disjunction of its two uses: the test of a
    directory name against the directory set, and the test of a file name
    against the extension and file-name sets.  So whatever one of the two
    tests excludes, the full predicate excludes, and with the three sets
    empty nothing is excluded. *)
Theorem should_ignore_splits `{Runtime} (path : string)
    (ignore_dirs ignore_exts ignore_files : gset string) :
  should_ignore path ignore_dirs ignore_exts ignore_files =
  should_ignore path ignore_dirs ∅ ∅ || should_ignore path ∅ ignore_exts ignore_files.
Proof.
  rewrite should_ignore_dirs_only, should_ignore_files_only.
  unfold should_ignore, excluded_dir, excluded_file.
  destruct (bool_decide (basename path ∈ ignore_dirs)),
           (bool_decide (basename path ∈ ignore_files)),
           (existsb _ (elements ignore_exts)); reflexivity.
Qed.

(** X4.  Adding exclusions never brings a name back: what smaller sets
    exclude, larger sets exclude. *)
Theorem should_ignore_monotone `{Runtime} (path : string)
    (D X F D' X' F' : gset string) :
  D ⊆ D' -> X ⊆ X' -> F ⊆ F' ->
  should_ignore path D X F = true -> should_ignore path D' X' F' = true.
Proof.
  intros HD HX HF. rewrite !should_ignore_true_iff.
  intros [Hd | [Hf | (ext & Hin & Hend)]]; [left | right; left | right; right].
  - set_solver.
  - set_solver.
  - exists ext. split; [set_solver | exact Hend].
Qed.

Lemma should_ignore_monotone_witness :
  @should_ignore NtLike.runtime "venv" default_ignore_dirs default_ignore_exts ∅ = true.
Proof.
  apply (@should_ignore_monotone NtLike.runtime "venv" {[ "venv" ]} ∅ ∅).
  - apply (bool_decide_unpack _). vm_compute. reflexivity.
  - set_solver.
  - set_solver.
  - vm_compute. reflexivity.
Defined.

(** ** The real run, effect by effect *)

Section RealRunTrace.
Context `{Runtime} (w : world) (src_folder dest_folder : string).
Context (D X F : gset string) (pbar : bool).

(** The copy loop of a real run: turn after turn, until [os.makedirs]
    raises. *)
Lemma run_body_exec_trace (l : list visit) (tr : list effect) :
  match run_body (copy_body w src_folder dest_folder D X F false pbar) l tr with
  | inr tr' =>
      tr' = tr ++ flat_map (visit_trace w src_folder dest_folder X F pbar) l
  | inl (tr', ex) =>
      exists l1 root dirs files l2,
        l = l1 ++ (root, dirs, files) :: l2 /\
        tr' = tr ++ flat_map (visit_trace w src_folder dest_folder X F pbar) l1
                 ++ [Makedirs (join dest_folder (relpath root src_folder))] /\
        ex = OSError (join dest_folder (relpath root src_folder)) /\
        makedirs w (join dest_folder (relpath root src_folder)) = false
  end.
Proof.
  revert tr. induction l as [|[[root dirs] files] l IH]; intros tr.
  - simpl. now rewrite app_nil_r.
  - rewrite run_body_exec_cons. cbv zeta.
    destruct (makedirs w (join dest_folder (relpath root src_folder))) eqn:Hmk.
    + specialize (IH (copy_files w X F false pbar root
                        (join dest_folder (relpath root src_folder)) files
                        (tr ++ [Makedirs (join dest_folder (relpath root src_folder))]))).
      destruct (run_body _ l _) as [[tr' ex] | tr'].
      * destruct IH as (l1 & root' & dirs' & files' & l2 & -> & -> & -> & Hm).
        exists ((root, dirs, files) :: l1), root', dirs', files', l2.
        split; [reflexivity |]. split; [| split; [reflexivity | exact Hm]].
        rewrite copy_files_app.
        cbn [flat_map visit_trace]. rewrite <- !app_assoc. reflexivity.
      * rewrite IH, copy_files_app.
        cbn [flat_map visit_trace]. rewrite <- !app_assoc. reflexivity.
    + exists [], root, dirs, files, l.
      split; [reflexivity |]. split; [reflexivity |]. split; [reflexivity | exact Hmk].
Qed.

Lemma visit_trace_calls (v : visit) :
  List.filter mutates (visit_trace w src_folder dest_folder X F pbar v) =
  visit_calls src_folder dest_folder X F v.
Proof.
  destruct v as [[root dirs] files]. cbn [visit_trace visit_calls List.filter mutates].
  f_equal. induction (List.filter _ files) as [|f fs IH]; [reflexivity |].
  cbn [flat_map map]. rewrite filter_app_list, IH. f_equal.
  unfold copy_file. destruct (copy2 w _ _), pbar; reflexivity.
Qed.

Lemma flat_map_visit_trace_calls (l : list visit) :
  List.filter mutates (flat_map (visit_trace w src_folder dest_folder X F pbar) l) =
  flat_map (visit_calls src_folder dest_folder X F) l.
Proof.
  rewrite filter_flat_map. apply List.flat_map_ext. intros v. apply visit_trace_calls.
Qed.

Lemma copy_file_logs (root dest_path : string) (f : entry) :
  List.filter is_log (copy_file w false pbar root dest_path f []) =
  map (record_of w) (attempts (copy_file w false pbar root dest_path f [])).
Proof.
  unfold copy_file, record_of.
  destruct (copy2 w (join root (entry_name f)) (join dest_path (entry_name f))) eqn:Hc;
    destruct pbar; cbn; rewrite Hc; reflexivity.
Qed.

Lemma visit_trace_logs (v : visit) :
  List.filter is_log (visit_trace w src_folder dest_folder X F pbar v) =
  map (record_of w) (attempts (visit_trace w src_folder dest_folder X F pbar v)).
Proof.
  destruct v as [[root dirs] files]. cbn [visit_trace List.filter is_log].
  change (attempts (Makedirs ?p :: ?t)) with (attempts t).
  induction (List.filter _ files) as [|f fs IH]; [reflexivity |].
  cbn [flat_map]. rewrite filter_app_list, attempts_app, map_app, IH.
  now rewrite copy_file_logs.
Qed.

Lemma flat_map_visit_trace_logs (l : list visit) :
  List.filter is_log (flat_map (visit_trace w src_folder dest_folder X F pbar) l) =
  map (record_of w)
      (attempts (flat_map (visit_trace w src_folder dest_folder X F pbar) l)).
Proof.
  induction l as [|v l IH]; [reflexivity |]. cbn [flat_map].
  now rewrite filter_app_list, attempts_app, map_app, IH, visit_trace_logs.
Qed.

Lemma visit_trace_updates (v : visit) :
  length (List.filter is_update (visit_trace w src_folder dest_folder X F pbar v)) =
  if pbar then length (visit_plan X F v) else 0%nat.
Proof.
  destruct v as [[root dirs] files]. cbn [visit_trace visit_plan List.filter is_update].
  rewrite length_map.
  induction (List.filter _ files) as [|f fs IH]; [now destruct pbar |].
  cbn [flat_map]. rewrite filter_app_list, length_app, IH.
  unfold copy_file. destruct (copy2 w _ _), pbar; reflexivity.
Qed.

Lemma flat_map_visit_trace_updates (l : list visit) :
  length (List.filter is_update
            (flat_map (visit_trace w src_folder dest_folder X F pbar) l)) =
  if pbar then length (flat_map (visit_plan X F) l) else 0%nat.
Proof.
  induction l as [|v l IH]; [now destruct pbar |]. cbn [flat_map].
  rewrite filter_app_list, !length_app, IH, visit_trace_updates.
  now destruct pbar.
Qed.

Lemma visit_trace_no_close (l : list visit) :
  ~ In TqdmClose (flat_map (visit_trace w src_folder dest_folder X F pbar) l).
Proof.
  intros Hin. apply in_flat_map in Hin as ([[root dirs] files] & _ & Hin).
  cbn [visit_trace] in Hin. destruct Hin as [Hin | Hin]; [discriminate |].
  apply in_flat_map in Hin as (f & _ & Hin). unfold copy_file in Hin.
  destruct (copy2 w _ _), pbar; cbn in Hin; intuition discriminate.
Qed.
End RealRunTrace.

Section RealRun.
Context `{Runtime} (w : world) (src_folder : string).
Context (ignore_dirs ignore_exts ignore_files : option (gset string)).

Let X := default default_ignore_exts ignore_exts.
Let F := default default_ignore_files ignore_files.
Let r := smart_copy_to_pendrive w src_folder ignore_dirs ignore_exts ignore_files false.
Let P := pbar_of w src_folder ignore_dirs ignore_exts ignore_files.
Let T0 := tr0_of w src_folder ignore_dirs ignore_exts ignore_files.
Let V := visits w src_folder ignore_dirs.

(** A real run with a drive attached, from its first effect to its last. *)
Lemma real_run_shape (pendrive_root : string) :
  find_pendrive w = inr pendrive_root ->
  let dest_folder := join pendrive_root (basename src_folder) in
  (raised r = None /\
   effects r = T0 ++ flat_map (visit_trace w src_folder dest_folder X F P) V
                  ++ (if P then [TqdmClose] else []))
  \/ (exists l1 root dirs files l2,
        V = l1 ++ (root, dirs, files) :: l2 /\
        effects r = T0 ++ flat_map (visit_trace w src_folder dest_folder X F P) l1
                       ++ [Makedirs (join dest_folder (relpath root src_folder))] /\
        raised r = Some (OSError (join dest_folder (relpath root src_folder))) /\
        makedirs w (join dest_folder (relpath root src_folder)) = false).
Proof.
  intros Hp dest_folder. subst r. rewrite (smart_copy_exec _ _ _ _ _ _ Hp).
  pose proof (run_body_exec_trace w src_folder dest_folder
                (default default_ignore_dirs ignore_dirs) X F P V T0) as Hrun.
  fold X F P T0 V dest_folder.
  destruct (run_body _ V T0) as [[tr ex] | tr].
  - right. destruct Hrun as (l1 & root & dirs & files & l2 & HV & -> & -> & Hmk).
    exists l1, root, dirs, files, l2. repeat split; assumption.
  - left. subst tr. cbn [close_run raised effects]. split; [reflexivity |].
    destruct P; [now rewrite <- app_assoc | now rewrite app_nil_r].
Qed.

(** The first loop counts the files of the plan. *)
Lemma count_files_length (files : list entry) (n : Z) :
  count_files X F files n =
  n + Z.of_nat (length (List.filter (fun f => negb (excluded_file X F (entry_name f)))
                                    files)).
Proof.
  revert n. induction files as [|f files IH]; intros n; cbn [count_files List.filter].
  - cbn. lia.
  - rewrite IH, should_ignore_files_only.
    destruct (excluded_file X F (entry_name f)); cbn [negb length]; lia.
Qed.

Lemma run_body_count (D : gset string) (l : list visit) (n : Z) :
  run_body (count_body D X F) l n =
  inr (n + Z.of_nat (length (flat_map (visit_plan X F) l))).
Proof.
  revert n. induction l as [|[[root dirs] files] l IH]; intros n.
  - cbn. f_equal. lia.
  - cbn [run_body count_body flat_map]. unfold count_body.
    rewrite IH, count_files_length, length_app. cbn [visit_plan].
    rewrite length_map. f_equal. lia.
Qed.

Lemma total_files_is_plan_length :
  total_files_of w src_folder ignore_dirs ignore_exts ignore_files =
  Z.of_nat (length (copy_plan w src_folder ignore_dirs ignore_exts ignore_files)).
Proof.
  unfold total_files_of. rewrite run_body_count, copy_plan_visits. cbn [no_raise].
  now rewrite Z.add_0_l.
Qed.
End RealRun.

(** X5.  The file-system calls of a real run.  When the run returns they
    are, for the directories the walk lists and in that order, one
    [os.makedirs] of the mirrored directory followed by one [shutil.copy2]
    into it for each file of the directory that the rules keep: a directory
    is made before anything is copied into it, a listed directory is made
    even when none of its files is kept, and nothing is made or copied for
    a pruned directory.  When the run raises, the calls are those of the
    directories before the one that could not be made, then the failed
    [os.makedirs]. *)
Theorem real_run_calls `{Runtime} (w : world) (src_folder : string)
    (ignore_dirs ignore_exts ignore_files : option (gset string)) (pendrive_root : string) :
  find_pendrive w = inr pendrive_root ->
  let r := smart_copy_to_pendrive w src_folder ignore_dirs ignore_exts ignore_files false in
  let calls := visit_calls src_folder (join pendrive_root (basename src_folder))
                 (default default_ignore_exts ignore_exts)
                 (default default_ignore_files ignore_files) in
  (raised r = None ->
   List.filter mutates (effects r) = flat_map calls (visits w src_folder ignore_dirs)) /\
  (forall ex,
      raised r = Some ex ->
      exists l1 root dirs files l2,
        visits w src_folder ignore_dirs = l1 ++ (root, dirs, files) :: l2 /\
        let dest_path :=
          join (join pendrive_root (basename src_folder)) (relpath root src_folder) in
        ex = OSError dest_path /\ makedirs w dest_path = false /\
        List.filter mutates (effects r) = flat_map calls l1 ++ [Makedirs dest_path]).
Proof.
  intros Hp r calls. subst r calls.
  pose proof (tr0_of_quiet w src_folder ignore_dirs ignore_exts ignore_files) as [_ Hq].
  destruct (real_run_shape w src_folder ignore_dirs ignore_exts ignore_files
              pendrive_root Hp) as [[Hr He] | (l1 & root & dirs & files & l2 & HV & He & Hr & Hmk)].
  - split; [| intros ex Hex; rewrite Hr in Hex; discriminate].
    intros _. rewrite He, !filter_app_list, Hq, flat_map_visit_trace_calls.
    cbn [app]. destruct (pbar_of _ _ _ _ _); cbn; apply app_nil_r.
  - split; [intros Hnone; rewrite Hr in Hnone; discriminate |].
    intros ex Hex. rewrite Hr in Hex. injection Hex as <-.
    exists l1, root, dirs, files, l2. split; [exact HV |]. cbv zeta.
    split; [reflexivity |]. split; [exact Hmk |].
    rewrite He, !filter_app_list, Hq, flat_map_visit_trace_calls. reflexivity.
Qed.

Lemma real_run_calls_witness :
  List.filter mutates
    (effects (@smart_copy_to_pendrive NtLike.runtime (pc true proj_tree always_ok copies)
                "C:/proj" None None None false))
  = [Makedirs "E:\proj\."; Copy2 "C:/proj\a.txt" "E:\proj\.\a.txt";
     Copy2 "C:/proj\b.DLL" "E:\proj\.\b.DLL";
     Makedirs "E:\proj\sub"; Copy2 "C:/proj\sub\d.py" "E:\proj\sub\d.py"].
Proof.
  rewrite (proj1 (@real_run_calls NtLike.runtime (pc true proj_tree always_ok copies)
                    "C:/proj" None None None "E:\" ltac:(vm_compute; reflexivity))).
  - vm_compute. reflexivity.
  - vm_compute. reflexivity.
Defined.

(** X6.  The log of a real run is, in order, one record for each call of
    [shutil.copy2]: ["Copied: ..."] when the call returned, ["Failed to
    copy ..."] with the text of the exception when it raised.  Nothing else
    is logged, not even when the run ends on a directory it cannot make. *)
Theorem one_record_per_attempt `{Runtime} (w : world) (src_folder : string)
    (ignore_dirs ignore_exts ignore_files : option (gset string)) :
  let r := smart_copy_to_pendrive w src_folder ignore_dirs ignore_exts ignore_files false in
  List.filter is_log (effects r) = map (record_of w) (attempts (effects r)).
Proof.
  cbv zeta. destruct (find_pendrive w) as [ex | root] eqn:Hp.
  - unfold smart_copy_to_pendrive. rewrite Hp. reflexivity.
  - assert (List.filter is_log (tr0_of w src_folder ignore_dirs ignore_exts ignore_files)
            = []) as Hq.
    { unfold tr0_of. destruct (HAS_TQDM w); reflexivity. }
    pose proof (tr0_of_quiet w src_folder ignore_dirs ignore_exts ignore_files) as [Ha _].
    destruct (real_run_shape w src_folder ignore_dirs ignore_exts ignore_files root Hp)
      as [[_ He] | (l1 & rt & dirs & files & l2 & _ & He & _ & _)];
      rewrite He, !filter_app_list, !attempts_app, !map_app, Hq, Ha,
        flat_map_visit_trace_logs; cbn [app map]; f_equal.
    + destruct (pbar_of _ _ _ _ _); reflexivity.
Qed.

(** X7.  The first loop and the second agree: the total given to the
    progress bar is the number of files of the plan.  In a real run with
    [tqdm] that returns, the bar is opened with that total; when the bar is
    true it is updated once per planned file, whether the copy succeeded or
    not, and then closed; when the bar is false ([tqdm] says so of a bar
    whose total is zero) it is neither updated nor closed. *)
Theorem progress_bar_counts `{Runtime} (w : world) (src_folder : string)
    (ignore_dirs ignore_exts ignore_files : option (gset string)) (pendrive_root : string) :
  find_pendrive w = inr pendrive_root ->
  HAS_TQDM w = true ->
  let r := smart_copy_to_pendrive w src_folder ignore_dirs ignore_exts ignore_files false in
  let plan := copy_plan w src_folder ignore_dirs ignore_exts ignore_files in
  let total := Z.of_nat (length plan) in
  raised r = None ->
  (exists rest, effects r = TqdmOpen total :: rest) /\
  length (List.filter is_update (effects r)) =
  (if tqdm_bool w total then length plan else 0%nat) /\
  (In TqdmClose (effects r) <-> tqdm_bool w total = true).
Proof.
  intros Hp Htq r plan total Hr. subst r plan total.
  destruct (real_run_shape w src_folder ignore_dirs ignore_exts ignore_files
              pendrive_root Hp) as [[_ He] | (l1 & rt & dirs & files & l2 & _ & _ & Hr' & _)];
    [| rewrite Hr' in Hr; discriminate].
  rewrite He. unfold tr0_of, pbar_of. rewrite Htq, total_files_is_plan_length.
  cbn [andb app]. split; [eauto |]. split.
  - cbn [List.filter is_update]. rewrite filter_app_list, length_app,
      flat_map_visit_trace_updates, <- copy_plan_visits.
    destruct (tqdm_bool w _); cbn; lia.
  - split.
    + intros [Hin | Hin]; [discriminate |]. apply in_app_iff in Hin as [Hin | Hin].
      * now apply visit_trace_no_close in Hin.
      * destruct (tqdm_bool w _); [reflexivity | destruct Hin].
    + intros ->. right. apply in_app_iff. right. now left.
Qed.

Lemma progress_bar_counts_witness :
  length (List.filter is_update
            (effects (@smart_copy_to_pendrive NtLike.runtime pc_tqdm
                        "C:/proj" None None None false))) = 3%nat.
Proof.
  pose proof (@progress_bar_counts NtLike.runtime pc_tqdm "C:/proj" None None None "E:\"
                ltac:(vm_compute; reflexivity) eq_refl ltac:(vm_compute; reflexivity))
    as (_ & Hn & _).
  rewrite Hn. vm_compute. reflexivity.
Defined.

(** ** What a run does not depend on *)

Section WorldExt.
Context `{Runtime}.

Lemma copy_files_world_ext (w w' : world) (X F : gset string) (dry_run pbar : bool)
    (root dest_path : string) (files : list entry) (tr : list effect) :
  copy2 w' = copy2 w ->
  copy_files w' X F dry_run pbar root dest_path files tr =
  copy_files w X F dry_run pbar root dest_path files tr.
Proof.
  intros Hc. revert tr. induction files as [|f files IH]; intros tr; [reflexivity |].
  cbn [copy_files]. destruct (should_ignore _ _ _ _); rewrite IH; [reflexivity |].
  unfold copy_file. now rewrite Hc.
Qed.

Lemma copy_body_world_ext (w w' : world) (src_folder dest_folder : string)
    (D X F : gset string) (dry_run pbar : bool) (root : string) (dirs files : list entry)
    (tr : list effect) :
  copy2 w' = copy2 w -> makedirs w' = makedirs w ->
  copy_body w' src_folder dest_folder D X F dry_run pbar root dirs files tr =
  copy_body w src_folder dest_folder D X F dry_run pbar root dirs files tr.
Proof.
  intros Hc Hm. unfold copy_body. now rewrite Hm, (copy_files_world_ext w w').
Qed.

(** Whether the bar counts changes nothing but the effects on the bar. *)
Lemma run_body_pbar_irrelevant (w : world) (src_folder dest_folder : string)
    (D X F : gset string) (pbar pbar' : bool) (l : list visit) :
  forall tr tr',
    List.filter (fun ev => negb (is_tqdm ev)) tr =
    List.filter (fun ev => negb (is_tqdm ev)) tr' ->
    let r := run_body (copy_body w src_folder dest_folder D X F false pbar) l tr in
    let r' := run_body (copy_body w src_folder dest_folder D X F false pbar') l tr' in
    List.filter (fun ev => negb (is_tqdm ev)) (trace_of r) =
    List.filter (fun ev => negb (is_tqdm ev)) (trace_of r') /\
    raised_of r = raised_of r'.
Proof.
  induction l as [|[[root dirs] files] l IH]; intros tr tr' Htr.
  - split; [exact Htr | reflexivity].
  - rewrite !run_body_exec_cons. cbv zeta.
    destruct (makedirs w (join dest_folder (relpath root src_folder))).
    + apply IH. rewrite !copy_files_app, !filter_app_list, Htr. f_equal.
      induction (List.filter _ files) as [|f fs IHfs]; [reflexivity |].
      cbn [flat_map]. rewrite !filter_app_list, IHfs. f_equal.
      unfold copy_file.
      destruct pbar, pbar', (copy2 w (join root (entry_name f)) _); reflexivity.
    + cbn. split; [| reflexivity]. now rewrite !filter_app_list, Htr.
Qed.

Lemma close_run_not_tqdm (pbar : bool) (res : (list effect * exn) + list effect) :
  List.filter (fun ev => negb (is_tqdm ev)) (effects (close_run pbar res)) =
  List.filter (fun ev => negb (is_tqdm ev)) (trace_of res).
Proof.
  destruct res as [[tr ex] | tr]; [reflexivity |]. simpl.
  destruct pbar; [| reflexivity]. rewrite filter_app_list. apply app_nil_r.
Qed.
End WorldExt.

(** X8.  The progress bar is an observer: with or without [tqdm], and
    whatever the truth value of the bar, a run makes the same calls to the
    file system, logs the same records in the same order, and ends the same
    way; only the effects on the bar differ. *)
Theorem progress_bar_is_an_observer `{Runtime} (w : world) (src_folder : string)
    (ignore_dirs ignore_exts ignore_files : option (gset string)) (dry_run : bool)
    (has : bool) (truth : Z -> bool) :
  let r := smart_copy_to_pendrive w src_folder ignore_dirs ignore_exts ignore_files
             dry_run in
  let r' := smart_copy_to_pendrive (with_tqdm w has truth) src_folder
              ignore_dirs ignore_exts ignore_files dry_run in
  List.filter (fun ev => negb (is_tqdm ev)) (effects r') =
  List.filter (fun ev => negb (is_tqdm ev)) (effects r) /\
  raised r' = raised r.
Proof.
  cbv zeta.
  assert (find_pendrive (with_tqdm w has truth) = find_pendrive w) as Hfp
    by now apply find_pendrive_ext.
  destruct (find_pendrive w) as [ex | root] eqn:Hp.
  - unfold smart_copy_to_pendrive. rewrite Hfp, Hp. split; reflexivity.
  - destruct dry_run.
    + rewrite (smart_copy_dry _ _ _ _ _ root Hfp), (smart_copy_dry _ _ _ _ _ root Hp).
      split; reflexivity.
    + rewrite (smart_copy_exec _ _ _ _ _ root Hfp), (smart_copy_exec _ _ _ _ _ root Hp).
      rewrite !close_run_not_tqdm, !close_run_raised.
      rewrite (run_body_ext _ _ (fun root dirs files tr =>
                 copy_body_world_ext w (with_tqdm w has truth) src_folder _ _ _ _ false _
                   root dirs files tr eq_refl eq_refl)).
      replace (visits (with_tqdm w has truth) src_folder ignore_dirs)
        with (visits w src_folder ignore_dirs) by reflexivity.
      apply run_body_pbar_irrelevant.
      unfold tr0_of. cbn [HAS_TQDM with_tqdm]. destruct has, (HAS_TQDM w); reflexivity.
Qed.

(** X9.  A dry run looks at the drives and at the source tree, and at
    nothing else: whatever creating a directory or copying a file would do
    on the destination, and with or without [tqdm], the dry run is the
    same. *)
Theorem dry_run_ignores_destination `{Runtime} (w : world) (src_folder : string)
    (ignore_dirs ignore_exts ignore_files : option (gset string))
    (mk : string -> bool) (cp : string -> string -> option string)
    (has : bool) (truth : Z -> bool) :
  smart_copy_to_pendrive (with_destination w mk cp has truth) src_folder
    ignore_dirs ignore_exts ignore_files true
  = smart_copy_to_pendrive w src_folder ignore_dirs ignore_exts ignore_files true.
Proof.
  assert (find_pendrive (with_destination w mk cp has truth) = find_pendrive w) as Hfp
    by now apply find_pendrive_ext.
  destruct (find_pendrive w) as [ex | root] eqn:Hp.
  - unfold smart_copy_to_pendrive. now rewrite Hfp, Hp.
  - rewrite (smart_copy_dry _ _ _ _ _ root Hfp), (smart_copy_dry _ _ _ _ _ root Hp).
    reflexivity.
Qed.

(** ** Excluded directories are never entered by [main.py] *)

Section Excluded.
Context `{Runtime}.

Lemma without_excluded_dir (D : gset string) (n : string) (l : bool) (cs : list entry) :
  without_excluded D (Dir n l cs) = Dir n l (flat_map (kept_children D) cs).
Proof. reflexivity. Qed.

Lemma without_excluded_name (D : gset string) (e : entry) :
  entry_name (without_excluded D e) = entry_name e /\
  is_dir (without_excluded D e) = is_dir e.
Proof. destruct e; split; reflexivity. Qed.

Lemma nondirs_kept (D : gset string) (cs : list entry) :
  nondirs (flat_map (kept_children D) cs) = nondirs cs.
Proof.
  unfold nondirs. induction cs as [|c cs IH]; [reflexivity |].
  cbn [flat_map]. rewrite filter_app_list, IH. unfold kept_children.
  destruct c as [n sz ok | n l cs'].
  - reflexivity.
  - cbn [is_dir andb entry_name]. destruct (excluded_dir D n); reflexivity.
Qed.

Lemma root_and_files_without_excluded (D : gset string) (e : entry) :
  forall top,
    flat_map root_and_files (yields (keep_dir D) top (without_excluded D e)) =
    flat_map root_and_files (yields (keep_dir D) top e).
Proof.
  induction e as [n sz ok | n l cs IH] using entry_ind; intros top; [reflexivity |].
  rewrite without_excluded_dir. destruct l; [| reflexivity].
  cbn [yields flat_map root_and_files]. rewrite nondirs_kept. f_equal.
  rewrite !flat_map_flat_map.
  apply flat_map_ext_Forall. eapply Forall_impl; [exact IH |]. intros c Hc. cbn beta.
  unfold kept_children, keep_dir.
  destruct (is_dir c) eqn:Hdir; cbn [andb].
  - destruct (excluded_dir D (entry_name c)) eqn:Hex; cbn [flat_map negb]; [reflexivity |].
    destruct (without_excluded_name D c) as [-> ->]. rewrite Hdir, Hex. cbn [andb negb].
    rewrite app_nil_r. apply Hc.
  - cbn [flat_map]. destruct (without_excluded_name D c) as [_ ->]. now rewrite Hdir.
Qed.

(** Two file systems on which the walk lists the same directories with the
    same files give the same run. *)
Lemma smart_copy_same_visits (w : world) (fs' : filesystem) (src_folder : string)
    (ignore_dirs ignore_exts ignore_files : option (gset string)) (dry_run : bool) :
  flat_map root_and_files (visits (with_fs w fs') src_folder ignore_dirs) =
  flat_map root_and_files (visits w src_folder ignore_dirs) ->
  smart_copy_to_pendrive (with_fs w fs') src_folder ignore_dirs ignore_exts ignore_files
    dry_run
  = smart_copy_to_pendrive w src_folder ignore_dirs ignore_exts ignore_files dry_run.
Proof.
  intros Hsame. unfold smart_copy_to_pendrive.
  rewrite (find_pendrive_ext w (with_fs w fs')) by reflexivity.
  destruct (find_pendrive w) as [ex | root]; [reflexivity |].
  rewrite !(walk_path_run_body (count_body _ _ _)
              (keep_dir (default default_ignore_dirs ignore_dirs)))
    by apply count_body_prunes.
  rewrite !(walk_path_run_body (copy_body _ _ _ _ _ _ _ _)
              (keep_dir (default default_ignore_dirs ignore_dirs)))
    by apply copy_body_prunes.
  fold (visits (with_fs w fs') src_folder ignore_dirs) (visits w src_folder ignore_dirs).
  rewrite (run_body_dirs_blind _ (count_body_dirs_blind _ _ _)
             (visits (with_fs w fs') src_folder ignore_dirs)
             (visits w src_folder ignore_dirs)) by exact Hsame.
  change (HAS_TQDM (with_fs w fs')) with (HAS_TQDM w).
  change (tqdm_bool (with_fs w fs')) with (tqdm_bool w).
  rewrite (run_body_ext _ _ (copy_body_with_fs w _ src_folder _ _ _ _ dry_run _)).
  rewrite (run_body_dirs_blind _ (copy_body_dirs_blind w src_folder _ _ _ _ dry_run _)
             (visits (with_fs w fs') src_folder ignore_dirs)
             (visits w src_folder ignore_dirs)) by exact Hsame.
  reflexivity.
Qed.

Lemma visit_plan_root_and_files (X F : gset string) (l : list visit) :
  flat_map (visit_plan X F) l =
  flat_map (fun rf => map (pair (fst rf))
                          (List.filter (fun f => negb (excluded_file X F (entry_name f)))
                                       (snd rf)))
           (flat_map root_and_files l).
Proof.
  rewrite flat_map_flat_map. apply List.flat_map_ext. intros [[root dirs] files].
  cbn. now rewrite app_nil_r.
Qed.

Lemma planned_without_excluded (D X F : gset string) (e : entry) (top : string) :
  planned D X F top (without_excluded D e) = planned D X F top e.
Proof.
  rewrite !planned_yields, !visit_plan_root_and_files.
  now rewrite root_and_files_without_excluded.
Qed.
End Excluded.

(** X10.  [main.py] does not enter the folders it ignores: a run, dry or
    real, is effect for effect the run on the tree from which every
    directory with an excluded name has been removed, so nothing that lies
    below such a directory can change what the run does.  The list of files
    in the report of [simulate_main.py] has the same property (its ignored
    total has not: it sums what is below). *)
Theorem excluded_directories_never_entered `{Runtime} (w : world) (src_folder : string)
    (ignore_dirs ignore_exts ignore_files : option (gset string)) (dry_run : bool) :
  smart_copy_to_pendrive
    (with_fs w (fs_without_excluded (default default_ignore_dirs ignore_dirs) (fs w)))
    src_folder ignore_dirs ignore_exts ignore_files dry_run
  = smart_copy_to_pendrive w src_folder ignore_dirs ignore_exts ignore_files dry_run /\
  written (simulate_main (fs_without_excluded default_dirs (fs w)) src_folder)
  = written (simulate_main (fs w) src_folder).
Proof.
  split.
  - apply smart_copy_same_visits. unfold visits, with_fs, fs_without_excluded. cbn [fs].
    destruct (fs w src_folder); [| reflexivity].
    apply root_and_files_without_excluded.
  - rewrite !simulate_main_written. unfold fs_without_excluded.
    destruct (fs w src_folder); [| reflexivity].
    now rewrite planned_without_excluded.
Qed.

(** ** Explicit sets *)

Lemma planned_no_rules `{Runtime} (e : entry) :
  forall root, planned ∅ ∅ ∅ root e = listed root e.
Proof.
  induction e as [n sz ok | n l cs IH] using entry_ind; intros root; [reflexivity |].
  destruct l; [| reflexivity]. cbn [planned listed]. f_equal.
  - f_equal. apply filter_all. apply Forall_forall. intros f _.
    unfold excluded_file. rewrite elements_empty. cbn [existsb].
    rewrite bool_decide_eq_false_2 by set_solver. reflexivity.
  - apply flat_map_ext_Forall. eapply Forall_impl; [exact IH |]. intros c Hc. cbn beta.
    unfold excluded_dir. rewrite bool_decide_eq_false_2 by set_solver.
    cbn [negb]. rewrite andb_true_r. destruct (is_dir c); [apply Hc | reflexivity].
Qed.

(** X11.  Only [None] stands for the default sets: a set that is passed
    explicitly is used as it is, also when it is empty.  With the three sets
    empty a dry run reports every file of every directory that can be
    listed, [node_modules] and [.git] included. *)
Theorem empty_sets_are_honoured `{Runtime} (w : world) (src_folder : string)
    (pendrive_root : string) :
  find_pendrive w = inr pendrive_root ->
  effects (smart_copy_to_pendrive w src_folder (Some ∅) (Some ∅) (Some ∅) true) =
  map (would_copy src_folder (join pendrive_root (basename src_folder)))
      (match fs w src_folder with
       | Some e => listed src_folder e
       | None => []
       end).
Proof.
  intros Hp. rewrite (smart_copy_dry _ _ _ _ _ _ Hp). cbn [effects]. f_equal.
  unfold copy_plan. destruct (fs w src_folder); [| reflexivity].
  apply planned_no_rules.
Qed.

Lemma empty_sets_are_honoured_witness :
  effects (@smart_copy_to_pendrive NtLike.runtime (pc true proj_tree always_ok copies)
             "C:/proj" (Some ∅) (Some ∅) (Some ∅) true)
  = [LogInfo "Would copy: C:/proj\a.txt -> E:\proj\.\a.txt";
     LogInfo "Would copy: C:/proj\b.DLL -> E:\proj\.\b.DLL";
     LogInfo "Would copy: C:/proj\c.dll -> E:\proj\.\c.dll";
     LogInfo "Would copy: C:/proj\node_modules\x.js -> E:\proj\node_modules\x.js";
     LogInfo
       "Would copy: C:/proj\node_modules\build\y.log -> E:\proj\node_modules\build\y.log";
     LogInfo "Would copy: C:/proj\sub\d.py -> E:\proj\sub\d.py"].
Proof.
  rewrite (@empty_sets_are_honoured NtLike.runtime (pc true proj_tree always_ok copies)
             "C:/proj" "E:\").
  - vm_compute. reflexivity.
  - vm_compute. reflexivity.
Defined.

(** ** simulate_main.py: totals and tables *)










(** ** simulate_main.py: the order of the rows of a table *)

Lemma string_compare_trans (s1 : string) :
  forall s2 s3,
    String.compare s1 s2 <> Gt -> String.compare s2 s3 <> Gt ->
    String.compare s1 s3 <> Gt.
Proof.
  induction s1 as [|c1 s1 IH]; intros [|c2 s2] [|c3 s3]; cbn [String.compare];
    try congruence.
  unfold Ascii.compare.
  destruct (N.compare_spec (N_of_ascii c1) (N_of_ascii c2)) as [E12 | L12 | G12];
    destruct (N.compare_spec (N_of_ascii c2) (N_of_ascii c3)) as [E23 | L23 | G23];
    destruct (N.compare_spec (N_of_ascii c1) (N_of_ascii c3)) as [E13 | L13 | G13];
    try congruence; try lia.
  apply IH.
Qed.

Lemma string_leb_trans (s1 s2 s3 : string) :
  String.leb s1 s2 = true -> String.leb s2 s3 = true -> String.leb s1 s3 = true.
Proof.
  unfold String.leb. intros H12 H23.
  pose proof (string_compare_trans s1 s2 s3) as Ht.
  destruct (String.compare s1 s2), (String.compare s2 s3), (String.compare s1 s3);
    try reflexivity; try discriminate; exfalso; apply Ht; congruence.
Qed.

Lemma row_key_le_before (a b : string * ext_stat) :
  row_key_le a b = true <-> row_before a b.
Proof.
  unfold row_key_le, row_before.
  rewrite orb_true_iff, andb_true_iff, Z.ltb_lt, Z.eqb_eq. reflexivity.
Qed.

Lemma row_before_total (a b : string * ext_stat) : row_before a b \/ row_before b a.
Proof.
  unfold row_before.
  destruct (Z.lt_trichotomy (st_size (snd a)) (st_size (snd b))) as [Hlt | [Heq | Hgt]].
  - right. now left.
  - destruct (String.leb_total (fst a) (fst b)) as [Hle | Hle].
    + left. right. now split.
    + right. right. now split.
  - left. now left.
Qed.

Lemma row_before_trans (a b c : string * ext_stat) :
  row_before a b -> row_before b c -> row_before a c.
Proof.
  unfold row_before. intros [Hab | [Hab Hab']] [Hbc | [Hbc Hbc']].
  - left. lia.
  - left. lia.
  - left. lia.
  - right. split; [lia |]. now apply string_leb_trans with (fst b).
Qed.

(** Two rows that come before each other have the same extension. *)
Lemma row_before_antisym (a b : string * ext_stat) :
  row_before a b -> row_before b a -> fst a = fst b.
Proof.
  unfold row_before. intros [Hab | [Hab Hab']] [Hba | [Hba Hba']]; try lia.
  now apply String.leb_antisym.
Qed.

Lemma insert_row_perm (x : string * ext_stat) (l : list (string * ext_stat)) :
  insert_row x l ≡ₚ x :: l.
Proof.
  induction l as [|y l IH]; [reflexivity |]. cbn [insert_row].
  destruct (row_key_le x y); [reflexivity |].
  rewrite IH. apply Permutation_swap.
Qed.

Lemma sorted_rows_perm (items : list (string * ext_stat)) : sorted_rows items ≡ₚ items.
Proof.
  induction items as [|x items IH]; [reflexivity |].
  unfold sorted_rows in *. cbn [fold_right]. now rewrite insert_row_perm, IH.
Qed.

Lemma insert_row_ordered (x : string * ext_stat) (l : list (string * ext_stat)) :
  ordered l -> ordered (insert_row x l).
Proof.
  induction l as [|y l IH]; intros Hl; [now split |].
  destruct Hl as [Hy Hl]. cbn [insert_row].
  destruct (row_key_le x y) eqn:Hxy.
  - apply row_key_le_before in Hxy. split; [| now split].
    constructor; [exact Hxy |].
    eapply Forall_impl; [exact Hy |]. intros z Hz. now apply row_before_trans with y.
  - split; [| now apply IH].
    rewrite insert_row_perm. constructor; [| exact Hy].
    destruct (row_before_total x y) as [Hb | Hb]; [| exact Hb].
    apply row_key_le_before in Hb. congruence.
Qed.

Lemma sorted_rows_ordered (items : list (string * ext_stat)) : ordered (sorted_rows items).
Proof.
  induction items as [|x items IH]; [exact I |].
  unfold sorted_rows in *. cbn [fold_right]. now apply insert_row_ordered.
Qed.


Lemma same_key_same_row (l : list (string * ext_stat)) :
  NoDup l.*1 -> forall a b, a ∈ l -> b ∈ l -> fst a = fst b -> a = b.
Proof.
  induction l as [|x l IH]; intros Hnd a b Ha Hb Hab; [now apply elem_of_nil in Ha |].
  cbn [fmap list_fmap] in Hnd. apply NoDup_cons in Hnd as [Hx Hnd].
  apply elem_of_cons in Ha as [-> | Ha]; apply elem_of_cons in Hb as [-> | Hb].
  - reflexivity.
  - exfalso. apply Hx. rewrite Hab. now apply list_elem_of_fmap_2.
  - exfalso. apply Hx. rewrite <- Hab. now apply list_elem_of_fmap_2.
  - now apply IH.
Qed.

(** A list of rows with different extensions has one ordered arrangement. *)
Lemma ordered_unique (l1 : list (string * ext_stat)) :
  forall l2, NoDup l1.*1 -> ordered l1 -> ordered l2 -> l1 ≡ₚ l2 -> l1 = l2.
Proof.
  induction l1 as [|x l1 IH]; intros l2 Hnd H1 H2 Hp.
  - now apply Permutation_nil_l in Hp.
  - destruct l2 as [|y l2]; [now apply Permutation_nil_r in Hp |].
    destruct H1 as [Hx H1], H2 as [Hy H2].
    assert (x = y) as <-.
    { assert (y ∈ x :: l1) as Hy1 by (rewrite Hp; apply list_elem_of_here).
      assert (x ∈ y :: l2) as Hx2 by (rewrite <- Hp; apply list_elem_of_here).
      apply elem_of_cons in Hy1 as [-> | Hy1]; [reflexivity |].
      apply elem_of_cons in Hx2 as [-> | Hx2]; [reflexivity |].
      rewrite Forall_forall in Hx, Hy.
      apply (same_key_same_row (x :: l1) Hnd);
        [apply list_elem_of_here | now apply list_elem_of_further |].
      apply row_before_antisym; [now apply Hx | now apply Hy]. }
    f_equal. apply IH; [| exact H1 | exact H2 | now apply Permutation_cons_inv in Hp].
    cbn [fmap list_fmap] in Hnd. now apply NoDup_cons in Hnd as [_ Hnd].
Qed.



(** X15.  The rows do not depend on the order in which the dictionary hands
    out its items: sorting any listing of the entries gives the same rows. *)
Theorem table_rows_any_order (stats : gmap string ext_stat)
    (items : list (string * ext_stat)) :
  items ≡ₚ map_to_list stats -> sorted_rows items = table_rows stats.
Proof.
  intros Hp. apply ordered_unique.
  - rewrite sorted_rows_perm, Hp. apply NoDup_fst_map_to_list.
  - apply sorted_rows_ordered.
  - apply sorted_rows_ordered.
  - unfold table_rows. now rewrite !sorted_rows_perm.
Qed.

Lemma table_rows_any_order_witness :
  sorted_rows [(".md", {| st_count := 2; st_size := 40 |});
               (".py", {| st_count := 1; st_size := 120 |})]
  = table_rows two_exts /\
  sorted_rows [(".py", {| st_count := 1; st_size := 120 |});
               (".md", {| st_count := 2; st_size := 40 |})]
  = table_rows two_exts.
Proof.
  split; apply (table_rows_any_order two_exts); vm_compute map_to_list.
  - reflexivity.
  - apply Permutation_swap.
Defined.

(** ** simulate_main.py: the list, the summary and the tables agree *)







(** ** simulate_main.py: a folder that cannot be walked *)

(** X17.  A test folder that does not exist, is a file or cannot be listed
    is no error: the report is written all the same, and holds the heading,
    no line ["Would copy: ..."], totals of zero and two tables without
    rows. *)
Theorem report_of_unwalkable_folder `{Runtime} (fmt : formatting) (fs : filesystem)
    (test_folder : string) :
  walkable fs test_folder = false ->
  simulated_copy_log fmt fs test_folder =
  report_header
  ++ [nl +:+ "## Summary" +:+ nl;
      "Total size to copy: " +:+ fmt_mb fmt 0 +:+ " MB" +:+ nl;
      "Total size ignored: " +:+ fmt_mb fmt 0 +:+ " MB" +:+ nl]
  ++ [nl +:+ "### Copied Extensions" +:+ nl;
      "Extension        Count      Size (MB)" +:+ nl;
      "-------------------------------------" +:+ nl]
  ++ [nl +:+ "### Ignored Extensions" +:+ nl;
      "Extension        Count      Size (MB)" +:+ nl;
      "-------------------------------------" +:+ nl].
Proof.
  intros Hw.
  assert (simulate_main fs test_folder = sim_init) as Hs.
  { unfold simulate_main, walk_path. unfold walkable in Hw.
    destruct (fs test_folder) as [[n sz ok | n [|] cs] |];
      [reflexivity | discriminate Hw | reflexivity | reflexivity]. }
  unfold simulated_copy_log. cbv zeta. rewrite Hs.
  cbn [written total_copy_size total_ignored_size copied_ext_stats ignored_ext_stats
       sim_init].
  unfold write_ext_table, table_rows. rewrite map_to_list_empty.
  reflexivity.
Qed.

Lemma report_of_unwalkable_folder_witness :
  walkable (fs_with proj_tree) "C:/nowhere" = false /\
  length (@simulated_copy_log NtLike.runtime fmt_nothing (fs_with proj_tree) "C:/nowhere")
  = (length report_header + 9)%nat.
Proof.
  split; [reflexivity |].
  rewrite (@report_of_unwalkable_folder NtLike.runtime fmt_nothing (fs_with proj_tree)
             "C:/nowhere" eq_refl).
  rewrite !length_app. cbn [length]. lia.
Defined.
